(** * Calldata builder of the bridging script: approve / exchange encoders
      and the slippage adjuster ([src/utils/transactions.ts]).

    The TypeScript source builds its two calldata strings with viem's
    [encodeFunctionData] and obtains the quote through viem's
    [publicClient.readContract].  The development below embeds

    - the hexadecimal string helpers and the Keccak-256 sponge that viem
      uses for function selectors and for EIP-55 address checksums,
    - the static ABI encoder of viem 2.x for the [address], [uintN] and
      [intN] parameter kinds (the only ones the source uses), with the
      errors it throws on these kinds,
    - the four functions of [transactions.ts], the asynchronous ones in a
      small monad that threads the trace of [readContract] requests and a
      completion (returned value or thrown error). *)

From Stdlib Require Import ZArith List String Ascii Bool Lia DecimalString.
Import ListNotations.

Local Open Scope string_scope.
Local Open Scope list_scope.
Local Open Scope Z_scope.

(* ===================================================================== *)
(** ** Keccak-256 *)
(* ===================================================================== *)

Module Keccak.

(** 64-bit lanes are kept as [Z] in [0, 2^64); every operation that can
    leave that range is followed by its wrap-around. *)
Definition mask64 : Z := Z.ones 64.

Definition rotl64 (v : Z) (n : Z) : Z :=
  Z.lor (Z.land (Z.shiftl v n) mask64) (Z.shiftr v (64 - n)).

Definition not64 (v : Z) : Z := Z.lxor v mask64.

(** The state is the 5x5 array of lanes, lane (x, y) at index x + 5 y. *)
Definition lane (st : list Z) (x y : nat) : Z :=
  nth ((x mod 5) + 5 * (y mod 5))%nat st 0.

Definition five : list nat := [0; 1; 2; 3; 4]%nat.

Definition build (f : nat -> nat -> Z) : list Z :=
  flat_map (fun y => map (fun x => f x y) five) five.

Definition rotc : list Z :=
  [  0;  1; 62; 28; 27;
    36; 44;  6; 55; 20;
     3; 10; 43; 25; 39;
    41; 45; 15; 21;  8;
    18;  2; 61; 56; 14 ].

Definition roundConstants : list Z :=
  [ 0x0000000000000001; 0x0000000000008082; 0x800000000000808A;
    0x8000000080008000; 0x000000000000808B; 0x0000000080000001;
    0x8000000080008081; 0x8000000000008009; 0x000000000000008A;
    0x0000000000000088; 0x0000000080008009; 0x000000008000000A;
    0x000000008000808B; 0x800000000000008B; 0x8000000000008089;
    0x8000000000008003; 0x8000000000008002; 0x8000000000000080;
    0x000000000000800A; 0x800000008000000A; 0x8000000080008081;
    0x8000000000008080; 0x0000000080000001; 0x8000000080008008 ].

Definition theta (st : list Z) : list Z :=
  let c x := fold_left Z.lxor (map (lane st x) five) 0 in
  let d x := Z.lxor (c (x + 4)%nat) (rotl64 (c (x + 1)%nat) 1) in
  build (fun x y => Z.lxor (lane st x y) (d x)).

(** rho and pi together: B[y, 2x + 3y] = rot (A[x, y], r[x, y]); read
    backwards, B[X, Y] takes A[x, y] with x = X + 3 Y and y = X. *)
Definition rhoPi (st : list Z) : list Z :=
  build (fun X Y =>
    let x := ((X + 3 * Y) mod 5)%nat in
    let y := X in
    rotl64 (lane st x y) (nth (x + 5 * y)%nat rotc 0)).

Definition chi (st : list Z) : list Z :=
  build (fun x y =>
    Z.lxor (lane st x y)
           (Z.land (not64 (lane st (x + 1) y)) (lane st (x + 2) y))).

Definition iota (rc : Z) (st : list Z) : list Z :=
  match st with
  | [] => []
  | a :: rest => Z.lxor a rc :: rest
  end.

Definition round (st : list Z) (rc : Z) : list Z :=
  iota rc (chi (rhoPi (theta st))).

Definition keccakF (st : list Z) : list Z :=
  fold_left round roundConstants st.

(** Little-endian packing of eight bytes into a lane and back. *)
Fixpoint bytesToLane (bs : list Z) : Z :=
  match bs with
  | [] => 0
  | b :: rest => b + 256 * bytesToLane rest
  end.

Fixpoint laneToBytes (n : nat) (v : Z) : list Z :=
  match n with
  | O => []
  | S n' => (v mod 256) :: laneToBytes n' (v / 256)
  end.

Fixpoint chunks (fuel : nat) (k : nat) (bs : list Z) : list (list Z) :=
  match fuel with
  | O => []
  | S fuel' =>
      match bs with
      | [] => []
      | _ => firstn k bs :: chunks fuel' k (skipn k bs)
      end
  end.

Definition rate : nat := 136.

(** Multi-rate padding with the original Keccak domain byte 0x01. *)
Definition pad (msg : list Z) : list Z :=
  let q := (rate - (List.length msg mod rate))%nat in
  if (q =? 1)%nat then msg ++ [0x81]
  else msg ++ [0x01] ++ repeat 0 (q - 2) ++ [0x80].

Fixpoint xorInto (st blockLanes : list Z) : list Z :=
  match st, blockLanes with
  | s :: st', b :: bl' => Z.lxor s b :: xorInto st' bl'
  | _, [] => st
  | [], _ => []
  end.

Definition absorb (st : list Z) (block : list Z) : list Z :=
  keccakF (xorInto st (map bytesToLane (chunks 17 8 block))).

Definition keccak256 (msg : list Z) : list Z :=
  let padded := pad msg in
  let blocks := chunks (List.length padded) rate padded in
  let st := fold_left absorb blocks (repeat 0 25) in
  firstn 32 (flat_map (laneToBytes 8) st).

End Keccak.

Definition stringToBytes (s : string) : list Z :=
  map (fun c => Z.of_N (N_of_ascii c)) (list_ascii_of_string s).

(* ===================================================================== *)
(** ** JavaScript strings and hexadecimal rendering *)
(* ===================================================================== *)

(** Strings are sequences of 8-bit characters.  Case conversion only
    touches the ASCII letters, which is all the address syntax admits. *)

Definition asciiCode (c : ascii) : Z := Z.of_N (N_of_ascii c).
Definition asciiOfCode (z : Z) : ascii := ascii_of_N (Z.to_N z).

Definition isDigit (c : ascii) : bool :=
  (48 <=? asciiCode c) && (asciiCode c <=? 57).
Definition isLowerHex (c : ascii) : bool :=
  (97 <=? asciiCode c) && (asciiCode c <=? 102).
Definition isUpperHex (c : ascii) : bool :=
  (65 <=? asciiCode c) && (asciiCode c <=? 70).
Definition isHexChar (c : ascii) : bool :=
  isDigit c || isLowerHex c || isUpperHex c.

Definition charToLowerCase (c : ascii) : ascii :=
  if (65 <=? asciiCode c) && (asciiCode c <=? 90)
  then asciiOfCode (asciiCode c + 32) else c.
Definition charToUpperCase (c : ascii) : ascii :=
  if (97 <=? asciiCode c) && (asciiCode c <=? 122)
  then asciiOfCode (asciiCode c - 32) else c.

Fixpoint mapString (f : ascii -> ascii) (s : string) : string :=
  match s with
  | EmptyString => EmptyString
  | String c s' => String (f c) (mapString f s')
  end.

Fixpoint allString (p : ascii -> bool) (s : string) : bool :=
  match s with
  | EmptyString => true
  | String c s' => p c && allString p s'
  end.

Definition toLowerCase : string -> string := mapString charToLowerCase.
Definition toUpperCase : string -> string := mapString charToUpperCase.

(** [s.substring(0, n)] and [s.substring(n)]. *)
Fixpoint take (n : nat) (s : string) : string :=
  match n, s with
  | S n', String c s' => String c (take n' s')
  | _, _ => EmptyString
  end.

Fixpoint drop (n : nat) (s : string) : string :=
  match n, s with
  | S n', String _ s' => drop n' s'
  | _, _ => s
  end.

Fixpoint repeatChar (c : ascii) (n : nat) : string :=
  match n with
  | O => EmptyString
  | S n' => String c (repeatChar c n')
  end.

(** [s.padStart(n, "0")]. *)
Definition padStart (n : nat) (s : string) : string :=
  (repeatChar "0" (n - String.length s) ++ s)%string.

Definition startsWith0x (s : string) : bool := String.eqb (take 2 s) "0x".

(** [hex.replace("0x", "")] on a value that carries the prefix at most at
    its head, which is the only place a hex value has an [x]. *)
Definition strip0x (s : string) : string :=
  if startsWith0x s then drop 2 s else s.

Definition hexChar (d : Z) : ascii :=
  if d <? 10 then asciiOfCode (48 + d) else asciiOfCode (87 + d).

Definition hexVal (c : ascii) : option Z :=
  if isDigit c then Some (asciiCode c - 48)
  else if isLowerHex c then Some (asciiCode c - 87)
  else if isUpperHex c then Some (asciiCode c - 55)
  else None.

(** The [n] low hexadecimal digits of [v], most significant first,
    written in front of [acc]. *)
Fixpoint hexDigits (n : nat) (v : Z) (acc : string) : string :=
  match n with
  | O => acc
  | S n' => hexDigits n' (v / 16) (String (hexChar (v mod 16)) acc)
  end.

(** [BigInt.prototype.toString(16)]: no leading zeros, ["0"] for zero and
    a minus sign for negative values. *)
Definition hexLength (v : Z) : nat := Z.to_nat (Z.log2 v / 4 + 1).

Definition toString16 (v : Z) : string :=
  if v <? 0 then String "-" (hexDigits (hexLength (- v)) (- v) "")
  else hexDigits (hexLength v) v "".

(** [BigInt("0x" + digits)] for a run of hexadecimal digits. *)
Fixpoint hexToZFrom (acc : Z) (s : string) : option Z :=
  match s with
  | EmptyString => Some acc
  | String c s' =>
      match hexVal c with
      | Some d => hexToZFrom (16 * acc + d) s'
      | None => None
      end
  end.

Definition hexToBigInt (digits : string) : option Z := hexToZFrom 0 digits.

Definition byteToHex (b : Z) : string :=
  String (hexChar (b / 16)) (String (hexChar (b mod 16)) EmptyString).

(** viem's [Hex]: the prefix ["0x"] followed by two digits per byte. *)
Definition Hex := string.
Definition Address := string.

Definition bytesToHex (bs : list Z) : Hex :=
  ("0x" ++ String.concat "" (map byteToHex bs))%string.

Definition concatHex (values : list Hex) : Hex :=
  ("0x" ++ fold_left (fun acc x => acc ++ strip0x x) values "")%string.

(** [size(hex)]: the number of bytes of a hex value. *)
Definition size (value : Hex) : nat := Nat.div2 (String.length value - 1).

(** [slice(hex, start, end)] in bytes. *)
Definition sliceHex (value : Hex) (start stop : nat) : Hex :=
  ("0x" ++ take (2 * (stop - start)) (drop (2 * start) (strip0x value)))%string.

Definition keccak256 (msg : string) : list Z :=
  Keccak.keccak256 (stringToBytes msg).

(* ===================================================================== *)
(** ** Completions and viem's errors *)
(* ===================================================================== *)

(** The errors that can reach the caller.  [IntegerOutOfRangeError] keeps
    the offending value, the signedness and the size in bytes of the
    integer type; [ClientError] stands for whatever the chain client
    rejects with. *)
Inductive Error : Type :=
| InvalidAddressError (address : string)
| IntegerOutOfRangeError (value : Z) (signed : bool) (size : Z)
| SizeExceedsPaddingSizeError
| AbiEncodingLengthMismatchError
| AbiTypeMismatch
| ClientError (reason : string).

(** Outcome of evaluating a JavaScript expression: a value, or a throw. *)
Inductive Completion (A : Type) : Type :=
| Normal (a : A)
| Throw (e : Error).
Arguments Normal {A} a.
Arguments Throw {A} e.

Definition bindC {A B} (c : Completion A) (k : A -> Completion B)
  : Completion B :=
  match c with
  | Normal a => k a
  | Throw e => Throw e
  end.


(* ===================================================================== *)
(** ** Addresses: syntax check and EIP-55 checksum *)
(* ===================================================================== *)

(** [/^0x[a-fA-F0-9]{40}$/.test(address)] *)
Definition addressRegexTest (address : string) : bool :=
  startsWith0x address
  && (String.length address =? 42)%nat
  && allString isHexChar (drop 2 address).

(** The checksum loop: character [k] of the lower-case address is put in
    upper case when nibble [k] of the hash is at least 8. *)
Fixpoint bytesToNibbles (bs : list Z) : list Z :=
  match bs with
  | [] => []
  | b :: rest => Z.shiftr b 4 :: Z.land b 15 :: bytesToNibbles rest
  end.

Fixpoint applyChecksum (address : string) (nibbles : list Z) : string :=
  match address, nibbles with
  | String c rest, h :: hs =>
      String (if 8 <=? h then charToUpperCase c else c) (applyChecksum rest hs)
  | _, _ => address
  end.

Definition checksumAddress (address_ : Address) : Address :=
  let hexAddress := toLowerCase (drop 2 address_) in
  let hash := keccak256 hexAddress in
  ("0x" ++ applyChecksum hexAddress (firstn 40 (bytesToNibbles hash)))%string.

(** [isAddress(address)] with its default [strict: true]. *)
Definition isAddress (address : string) : bool :=
  if negb (addressRegexTest address) then false
  else if String.eqb (toLowerCase address) address then true
  else String.eqb (checksumAddress address) address.

(* ===================================================================== *)
(** ** viem's ABI encoder, static parameter kinds *)
(* ===================================================================== *)

Inductive AbiType : Type :=
| address
| uint (bits : nat)
| int (bits : nat).

Record AbiParameter : Type := { type : AbiType; name : string }.

Record AbiFunction : Type :=
  { functionName : string;
    inputs : list AbiParameter;
    outputs : list AbiType }.

(** Argument values: JavaScript strings for addresses, bigints for numbers. *)
Inductive AbiValue : Type :=
| VAddress (a : string)
| VBigInt (z : Z).

Definition decimal (n : nat) : string := NilZero.string_of_uint (Nat.to_uint n).

Definition formatAbiType (t : AbiType) : string :=
  match t with
  | address => "address"
  | uint bits => ("uint" ++ decimal bits)%string
  | int bits => ("int" ++ decimal bits)%string
  end.

(** [formatAbiItem]: the canonical signature, name(type,...,type). *)
Definition formatAbiItem (abiItem : AbiFunction) : string :=
  (functionName abiItem ++ "("
     ++ String.concat "," (map (fun p => formatAbiType (type p)) (inputs abiItem))
     ++ ")")%string.

(** [toFunctionSelector]: the first four bytes of the signature's hash. *)
Definition toFunctionSelector (signature : string) : Hex :=
  sliceHex (bytesToHex (keccak256 signature)) 0 4.

(** [padHex(hex, { size })], padding on the left. *)
Definition padHex (hex_ : Hex) (size_ : nat) : Completion Hex :=
  let hex := strip0x hex_ in
  if (size_ * 2 <? String.length hex)%nat then Throw SizeExceedsPaddingSizeError
  else Normal ("0x" ++ padStart (size_ * 2) hex)%string.

(** [numberToHex(value, { size, signed })] *)
Definition numberToHex (value : Z) (size_ : nat) (signed : bool)
  : Completion Hex :=
  let bits := Z.of_nat size_ * 8 in
  let maxValue := if signed then Z.shiftl 1 (bits - 1) - 1 else 2 ^ bits - 1 in
  let minValue := if signed then - maxValue - 1 else 0 in
  if (maxValue <? value) || (value <? minValue)
  then Throw (IntegerOutOfRangeError value signed (Z.of_nat size_))
  else
    let unsigned :=
      if signed && (value <? 0) then Z.shiftl 1 bits + value else value in
    let hex := ("0x" ++ toString16 unsigned)%string in
    padHex hex size_.

(** [encodeNumber(value, { signed, size })]: the bounds of the declared
    width are checked first, then the value is written as a 32-byte word
    (where [numberToHex] checks the bounds of 32 bytes once more). *)
Definition encodeNumber (value : Z) (signed : bool) (bits : nat)
  : Completion Hex :=
  let max := 2 ^ (Z.of_nat bits - (if signed then 1 else 0)) - 1 in
  let min := if signed then - max - 1 else 0 in
  if (max <? value) || (value <? min)
  then Throw (IntegerOutOfRangeError value signed (Z.of_nat bits / 8))
  else numberToHex value 32 signed.

(** [encodeAddress(value)] *)
Definition encodeAddress (value : string) : Completion Hex :=
  if negb (isAddress value) then Throw (InvalidAddressError value)
  else padHex (toLowerCase value) 32.

(** [prepareParam]: dispatch on the declared type.  A value of the other
    JavaScript kind is excluded by the argument types that
    [encodeFunctionData] derives from the ABI. *)
Definition prepareParam (param : AbiParameter) (value : AbiValue)
  : Completion Hex :=
  match type param, value with
  | address, VAddress a => encodeAddress a
  | uint bits, VBigInt z => encodeNumber z false bits
  | int bits, VBigInt z => encodeNumber z true bits
  | _, _ => Throw AbiTypeMismatch
  end.

Fixpoint prepareParams (params : list AbiParameter) (values : list AbiValue)
  : Completion (list Hex) :=
  match params, values with
  | p :: ps, v :: vs =>
      bindC (prepareParam p v) (fun w =>
      bindC (prepareParams ps vs) (fun ws => Normal (w :: ws)))
  | _, _ => Normal []
  end.

(** [encodeAbiParameters(params, values)]; every parameter here is static,
    so the encoding is the concatenation of the prepared words. *)
Definition encodeAbiParameters (params : list AbiParameter)
  (values : list AbiValue) : Completion Hex :=
  if negb (List.length params =? List.length values)%nat
  then Throw AbiEncodingLengthMismatchError
  else bindC (prepareParams params values) (fun preparedParams =>
       Normal (concatHex preparedParams)).

(** [encodeFunctionData({ abi: [abiItem], args })] *)
Definition encodeFunctionData (abiItem : AbiFunction) (args : list AbiValue)
  : Completion Hex :=
  let signature := toFunctionSelector (formatAbiItem abiItem) in
  bindC (encodeAbiParameters (inputs abiItem) args) (fun data =>
  Normal (concatHex [signature; data])).

(* ===================================================================== *)
(** ** ABI decoding, as [decodeFunctionData] reads the same layout *)
(* ===================================================================== *)

(** [hexToBigInt(word, { signed })] on a 32-byte word. *)
Definition decodeNumber (signed : bool) (word : string) : option Z :=
  match hexToBigInt word with
  | Some value =>
      if signed && (Z.shiftl 1 255 - 1 <? value)
      then Some (value - 2 ^ 256) else Some value
  | None => None
  end.

(** The address is the low 20 bytes of the word, rendered with checksum. *)
Definition decodeAddress (word : string) : option Address :=
  if allString isHexChar word
  then Some (checksumAddress ("0x" ++ drop 24 word)%string)
  else None.

Definition decodeParam (t : AbiType) (word : string) : option AbiValue :=
  match t with
  | address => option_map VAddress (decodeAddress word)
  | uint _ => option_map VBigInt (decodeNumber false word)
  | int _ => option_map VBigInt (decodeNumber true word)
  end.

Fixpoint decodeAbiParameters (params : list AbiParameter) (data : string)
  : option (list AbiValue) :=
  match params with
  | [] => Some []
  | p :: ps =>
      if (String.length data <? 64)%nat then None
      else
        match decodeParam (type p) (take 64 data),
              decodeAbiParameters ps (drop 64 data) with
        | Some v, Some vs => Some (v :: vs)
        | _, _ => None
        end
  end.

Definition decodeFunctionData (abiItem : AbiFunction) (data : Hex)
  : option (list AbiValue) :=
  if String.eqb (sliceHex data 0 4) (toFunctionSelector (formatAbiItem abiItem))
  then decodeAbiParameters (inputs abiItem) (drop 10 data)
  else None.

(* ===================================================================== *)
(** ** The chain client and asynchronous computations *)
(* ===================================================================== *)

Record ReadContractParameters : Type :=
  { rc_abi : AbiFunction;
    rc_address : Address;
    rc_functionName : string;
    rc_args : list AbiValue }.

(** The requests made so far, oldest first. *)
Definition Trace := list ReadContractParameters.

(** A read-capable client: its answer to a request may depend on the
    requests that came before (the chain moves on between two reads); it
    either returns the decoded [uint256] or rejects. *)
Record PublicClient : Type :=
  { readContract : Trace -> ReadContractParameters -> Completion Z }.

(** An [async] function body: run from a trace, it settles to a
    completion and leaves the extended trace. *)
Definition Async (A : Type) : Type := Trace -> Completion A * Trace.

Definition resolve {A} (c : Completion A) : Async A := fun tr => (c, tr).

Definition await {A B} (p : Async A) (k : A -> Async B) : Async B :=
  fun tr =>
    match p tr with
    | (Normal a, tr') => k a tr'
    | (Throw e, tr') => (Throw e, tr')
    end.

Notation "'let*' x ':=' 'await' p 'in' k" := (await p (fun x => k))
  (at level 10, x name, p at level 100, k at level 200).

(* ===================================================================== *)
(** ** [src/utils/transactions.ts] *)
(* ===================================================================== *)

(** [parseAbiItem("function approve(address spender, uint256 value)")] *)
Definition approveAbi : AbiFunction :=
  {| functionName := "approve";
     inputs := [ {| type := address; name := "spender" |};
                 {| type := uint 256; name := "value" |} ];
     outputs := [] |}.

(** [parseAbiItem("function exchange(int128 i,int128 j,uint256 _dx,
    uint256 _min_dy,address _receiver)")] *)
Definition exchangeAbi : AbiFunction :=
  {| functionName := "exchange";
     inputs := [ {| type := int 128; name := "i" |};
                 {| type := int 128; name := "j" |};
                 {| type := uint 256; name := "_dx" |};
                 {| type := uint 256; name := "_min_dy" |};
                 {| type := address; name := "_receiver" |} ];
     outputs := [] |}.

(** [parseAbiItem("function get_dy(int128 i,int128 j,uint256 dx) external
    view returns (uint256)")] *)
Definition get_dyAbi : AbiFunction :=
  {| functionName := "get_dy";
     inputs := [ {| type := int 128; name := "i" |};
                 {| type := int 128; name := "j" |};
                 {| type := uint 256; name := "dx" |} ];
     outputs := [ uint 256 ] |}.

Definition generateApproveCallData (spender : Address) (amount : Z)
  : Completion Hex :=
  let approveCallData :=
    encodeFunctionData approveAbi [VAddress spender; VBigInt amount] in
  approveCallData.

(** [slippageBps] is an optional argument; [None] is the omitted one and
    takes the default [3n].  The division of bigints truncates. *)
Definition calculateAdjustedMinOutput (amount : Z) (slippageBps : option Z)
  : Z :=
  let slippageBps := match slippageBps with Some b => b | None => 3 end in
  Z.quot (amount * (10000 - slippageBps)) 10000.

(** The client is an argument here, so that the function can be run
    against any reader of the chain; the source creates it inside, on
    every call, as [createPublicClient({ chain: mainnet, transport:
    http() })], which is [createPublicClient (http rpc)] further down. *)
Definition getMinDy (publicClient : PublicClient)
  (swapContractAddress : Address) (i j dx : Z) : Async Z :=
  fun tr =>
    let request :=
      {| rc_abi := get_dyAbi;
         rc_address := swapContractAddress;
         rc_functionName := "get_dy";
         rc_args := [VBigInt i; VBigInt j; VBigInt dx] |} in
    (readContract publicClient tr request, tr ++ [request]).

Definition generateExchangeCallData (publicClient : PublicClient)
  (swapContractAddress : Address) (i j _dx : Z) (_receiver : Address)
  : Async Hex :=
  let* minDy := await getMinDy publicClient swapContractAddress i j _dx in
  let adjustedMinDy := calculateAdjustedMinOutput minDy None in
  let exchangeCallData :=
    encodeFunctionData exchangeAbi
      [VBigInt i; VBigInt j; VBigInt _dx; VBigInt adjustedMinDy;
       VAddress _receiver] in
  resolve exchangeCallData.

(* ===================================================================== *)
(** ** Vocabulary of the statements *)
(* ===================================================================== *)

(** A 32-byte ABI word: 64 digits, most significant first. *)
Definition word (u : Z) : string := hexDigits 64 u "".

(** The word written for an address: twelve zero bytes, then the twenty
    bytes of the address in lower-case digits. *)
Definition addressWord (a : Address) : string :=
  (repeatChar "0" 24 ++ toLowerCase (drop 2 a))%string.

Definition int128 (v : Z) : Prop := - 2 ^ 127 <= v < 2 ^ 127.
Definition uint256 (v : Z) : Prop := 0 <= v < 2 ^ 256.

(** The calldata of [approve]: selector, spender word, amount word. *)
Definition approveLayout (spender : Address) (amount : Z) : Hex :=
  ("0x" ++ "095ea7b3" ++ addressWord spender ++ word amount)%string.

(** The part of the exchange calldata in front of the [_min_dy] word. *)
Definition exchangeHead (i j _dx : Z) : string :=
  ("0x" ++ "ddc1f59d" ++ word (i mod 2 ^ 256) ++ word (j mod 2 ^ 256)
        ++ word _dx)%string.

(** The calldata of [exchange]: selector and five words. *)
Definition exchangeLayout (i j _dx _min_dy : Z) (_receiver : Address) : Hex :=
  ("0x" ++ "ddc1f59d" ++ word (i mod 2 ^ 256) ++ word (j mod 2 ^ 256)
        ++ word _dx ++ word _min_dy ++ addressWord _receiver)%string.

(** A call of [calculateAdjustedMinOutput] as a completion: its body is a
    single [return] of bigint arithmetic with a non-zero constant divisor,
    so every call completes normally. *)
Definition adjust (amount slippageBps : Z) : Completion Z :=
  Normal (calculateAdjustedMinOutput amount (Some slippageBps)).

(** The request [getMinDy] hands to the client. *)
Definition get_dyRequest (swapContractAddress : Address) (i j dx : Z)
  : ReadContractParameters :=
  {| rc_abi := get_dyAbi;
     rc_address := swapContractAddress;
     rc_functionName := "get_dy";
     rc_args := [VBigInt i; VBigInt j; VBigInt dx] |}.

(** The arguments the exchange call is encoded from, given the quote. *)
Definition exchangeArgs (i j _dx quote : Z) (_receiver : Address)
  : list AbiValue :=
  [VBigInt i; VBigInt j; VBigInt _dx;
   VBigInt (calculateAdjustedMinOutput quote None); VAddress _receiver].


(** Addresses of the driver ([index.ts]): the Curve USDe-USDC pool and
    USDC on mainnet. *)
Definition curvePool : Address := "0x02950460E2b9529D0E00284A5fA2d7bDF3fA4d72".
Definition usdcMainnet : Address := "0xA0b86991c6218b36c1d19D4a2e9Eb0cE3606eB48".

(** A stub client that answers every request with the same quote, one
    that rejects every request, and one whose quote follows the requested
    [dx]. *)
Definition constantQuoter (quote : Z) : PublicClient :=
  {| readContract := fun _ _ => Normal quote |}.

Definition failingQuoter (e : Error) : PublicClient :=
  {| readContract := fun _ _ => Throw e |}.

Definition followingQuoter : PublicClient :=
  {| readContract := fun _ request =>
       match rc_args request with
       | [_; _; VBigInt dx] => Normal (dx - dx / 100)
       | _ => Throw (ClientError "malformed request")
       end |}.

(* ===================================================================== *)
(** ** [src/utils/helpers.ts] *)
(* ===================================================================== *)

(** The part of viem's [Chain] that the helper reads: the optional
    [blockExplorers], whose [default] entry carries the [url]. *)
Record BlockExplorer : Type := { url : string }.
Record BlockExplorers : Type := { default : BlockExplorer }.
Record Chain : Type :=
  { chainId : Z; blockExplorers : option BlockExplorers }.

(** A returned value, or [throw new Error(message)]. *)
Inductive Outcome (A : Type) : Type :=
| Returned (a : A)
| Thrown (message : string).
Arguments Returned {A} a.
Arguments Thrown {A} message.

(** [s.endsWith(searchString)] *)
Definition endsWith (s searchString : string) : bool :=
  let n := String.length s in
  let m := String.length searchString in
  if (m <=? n)%nat then String.eqb (drop (n - m) s) searchString else false.

Definition createTransactionUrl (chain : Chain) (transactionHash : string)
  : Outcome string :=
  match blockExplorers chain with
  | None => Thrown "Chain has no block explorers"
  | Some explorers =>
      let blockExplorerUrl := url (default explorers) in
      let blockExplorerUrl :=
        if negb (endsWith blockExplorerUrl "/")
        then (blockExplorerUrl ++ "/")%string else blockExplorerUrl in
      Returned (blockExplorerUrl ++ "tx/" ++ transactionHash)%string
  end.

(** What the helper computes: the explorer URL, completed by a slash when
    it does not end with one. *)
Definition explorerBase (explorers : BlockExplorers) : string :=
  if endsWith (url (default explorers)) "/"
  then url (default explorers)
  else (url (default explorers) ++ "/")%string.

(* ===================================================================== *)
(** ** [src/index.ts]: configuration and the cross-chain message *)
(* ===================================================================== *)

Module Driver.

Record Route : Type :=
  { originChainId : Z;
    destinationChainId : Z;
    inputToken : Address;
    outputToken : Address }.

(** USDC from Arbitrum (chain 42161) to USDC on mainnet (chain 1). *)
Definition route : Route :=
  {| originChainId := 42161;
     destinationChainId := 1;
     inputToken := "0xaf88d065e77c8cC2239327C5EDb3A432268e5831";
     outputToken := "0xA0b86991c6218b36c1d19D4a2e9Eb0cE3606eB48" |}.

(** [parseUnits("100", 6)] *)
Definition inputAmount : Z := 100000000.

Record CurveParams : Type :=
  { contractAddress : Address; i : Z; j : Z }.

Definition curveParams : CurveParams :=
  {| contractAddress := "0x02950460E2b9529D0E00284A5fA2d7bDF3fA4d72";
     i := 1;
     j := 0 |}.

(** The [update] closure of an action: the approval one is an ordinary
    function, the exchange one is [async].  Each returns an object whose
    only field is the new [callData]. *)
Inductive Update : Type :=
| SyncUpdate (f : Z -> Completion Hex)
| AsyncUpdate (f : Z -> Async Hex).

Record Action : Type :=
  { target : Address; callData : Hex; value : Z; update : Update }.

Record CrossChainMessage : Type :=
  { actions : list Action; fallbackRecipient : Address }.

(** The object literal bound to [approveAndSwapMessage] in [executeSwap],
    as a function of the client that [getMinDy] reads from and of the
    wallet's [userAddress].  Its fields are evaluated in order: the
    approval calldata, then the awaited exchange calldata. *)
Definition approveAndSwapMessage (publicClient : PublicClient)
  (userAddress : Address) : Async CrossChainMessage :=
  let* approveCallData :=
    await resolve (generateApproveCallData (contractAddress curveParams)
                     inputAmount) in
  let* exchangeCallData :=
    await generateExchangeCallData publicClient (contractAddress curveParams)
            (i curveParams) (j curveParams) inputAmount userAddress in
  resolve (Normal
    {| actions :=
         [ {| target := outputToken route;
              callData := approveCallData;
              value := 0;
              update := SyncUpdate (fun updatedOutputAmount =>
                generateApproveCallData (contractAddress curveParams)
                  updatedOutputAmount) |};
           {| target := contractAddress curveParams;
              callData := exchangeCallData;
              value := 0;
              update := AsyncUpdate (fun updatedOutputAmount =>
                generateExchangeCallData publicClient
                  (contractAddress curveParams) (i curveParams)
                  (j curveParams) updatedOutputAmount userAddress) |} ];
       fallbackRecipient := userAddress |}).

End Driver.

(** The block explorers of the two chains of the route, as viem's chain
    definitions give them. *)
Definition mainnetChain : Chain :=
  {| chainId := 1;
     blockExplorers := Some {| default := {| url := "https://etherscan.io" |} |} |}.
Definition arbitrumChain : Chain :=
  {| chainId := 42161;
     blockExplorers := Some {| default := {| url := "https://arbiscan.io" |} |} |}.

(* ===================================================================== *)
(** ** The client that [getMinDy] creates *)
(* ===================================================================== *)

(** [getMinDy] does not receive its client: it builds it on every call as
    [createPublicClient({ chain: mainnet, transport: http() })].  The
    definitions of this part embed that client: viem's [readContract] over
    an HTTP transport with viem's default retry policy.  [getMinDy] above
    is stated for any client, so that a stub can stand in for the chain;
    instantiated with [createPublicClient (http rpc)] it is the function
    as the source runs it. *)

(** What a single HTTP request can fail with: a JSON-RPC error object
    with its numeric code, a response that is not ok with its status (no
    status when the request did not get through at all), or a timeout. *)
Inductive TransportError : Type :=
| RpcRequestError (code : Z)
| HttpRequestError (status : option Z)
| TimeoutError.

(** viem's [shouldRetry(error)] of [buildRequest]. *)
Definition shouldRetry (error : TransportError) : bool :=
  match error with
  | RpcRequestError code =>
      (code =? -1) || (code =? -32005) || (code =? -32603)
  | HttpRequestError (Some status) =>
      if status =? 0 then true
      else existsb (Z.eqb status) [403; 408; 413; 429; 500; 502; 503; 504]
  | HttpRequestError None => true
  | TimeoutError => true
  end.

(** The RPC endpoint of the chain: what the HTTP request number [k] made
    against it, an [eth_call] to [to] with [data], is answered with. *)
Definition Endpoint : Type := nat -> Address -> Hex -> TransportError + Hex.

Record Transport : Type := { retryCount : nat; endpoint : Endpoint }.

(** [http()]: the transport with its defaults, three retries. *)
Definition http (rpc : Endpoint) : Transport :=
  {| retryCount := 3; endpoint := rpc |}.

(** [withRetry(fn, { retryCount, shouldRetry })], started at the request
    number [attempt]: the outcome and the number of the next request. *)
Fixpoint withRetry {A} (retriesLeft : nat) (fn : nat -> TransportError + A)
  (attempt : nat) : (TransportError + A) * nat :=
  match fn attempt with
  | inr data => (inr data, S attempt)
  | inl err =>
      match retriesLeft with
      | S retriesLeft' =>
          if shouldRetry err then withRetry retriesLeft' fn (S attempt)
          else (inl err, S attempt)
      | O => (inl err, S attempt)
      end
  end.

Definition causeName (error : TransportError) : string :=
  match error with
  | RpcRequestError _ => "RpcRequestError"
  | HttpRequestError _ => "HttpRequestError"
  | TimeoutError => "TimeoutError"
  end.

(** [decodeFunctionResult] for a function with one integer output. *)
Definition decodeFunctionResult (abiItem : AbiFunction) (data : Hex)
  : Completion Z :=
  match outputs abiItem with
  | [uint _] =>
      if (size data =? 0)%nat then Throw (ClientError "AbiDecodingZeroDataError")
      else if (size data <? 32)%nat
      then Throw (ClientError "AbiDecodingDataSizeTooSmallError")
      else
        match decodeNumber false (take 64 (strip0x data)) with
        | Some v => Normal v
        | None => Throw (ClientError "SyntaxError")
        end
  | _ => Throw AbiTypeMismatch
  end.

(** viem's [readContract], started at the HTTP request number [attempt]:
    the call is encoded first, outside the [try] (an encoding error is
    thrown as it is and nothing is sent); inside it, [call] checks a
    non-empty [to] address, then sends the [eth_call] through the
    transport, and the answer is decoded.  Whatever is thrown inside the
    [try] reaches the caller as a ContractFunctionExecutionError;
    [ClientError] carries the name of its cause. *)
Definition viemReadContract (transport : Transport) (attempt : nat)
  (parameters : ReadContractParameters) : Completion Z * nat :=
  if negb (String.eqb (rc_functionName parameters)
             (functionName (rc_abi parameters)))
  then (Throw (ClientError "AbiFunctionNotFoundError"), attempt)
  else
    match encodeFunctionData (rc_abi parameters) (rc_args parameters) with
    | Throw e => (Throw e, attempt)
    | Normal calldata =>
        let to := rc_address parameters in
        if negb (String.eqb to "") && negb (isAddress to)
        then (Throw (ClientError "InvalidAddressError"), attempt)
        else
          match withRetry (retryCount transport)
                  (fun k => endpoint transport k to calldata) attempt with
          | (inl err, attempt') => (Throw (ClientError (causeName err)), attempt')
          | (inr response, attempt') =>
              (decodeFunctionResult (rc_abi parameters) response, attempt')
          end
    end.

(** The number of HTTP requests made once the calls of a trace have run,
    counted from [attempt]. *)
Fixpoint httpAttempts (transport : Transport) (attempt : nat) (tr : Trace)
  : nat :=
  match tr with
  | [] => attempt
  | parameters :: rest =>
      httpAttempts transport
        (snd (viemReadContract transport attempt parameters)) rest
  end.

(** [createPublicClient({ chain, transport })]: its [readContract] after
    the calls of [tr] continues at the HTTP request number they left. *)
Definition createPublicClient (transport : Transport) : PublicClient :=
  {| readContract := fun tr parameters =>
       fst (viemReadContract transport (httpAttempts transport 0 tr)
              parameters) |}.

(** The calldata of the [get_dy] call: selector and three words. *)
Definition get_dyLayout (i j dx : Z) : Hex :=
  ("0x" ++ "5e0d443f" ++ word (i mod 2 ^ 256) ++ word (j mod 2 ^ 256)
        ++ word dx)%string.



Definition quotingEndpoint (quote : Z) : Endpoint :=
  fun _ _ _ => inr ("0x" ++ word quote)%string.

(** Range side conditions on concrete numbers. *)
Ltac in_range := unfold int128, uint256; lia.

(** Facts about single characters are settled by running through the 256
    of them. *)
Ltac all_chars c :=
  destruct c as [[] [] [] [] [] [] [] []]; vm_compute;
  try reflexivity; try discriminate; auto.

(* ===================================================================== *)
(** ** Strings: lengths, prefixes and suffixes *)
(* ===================================================================== *)

Lemma length_append (a b : string) :
  String.length (a ++ b)%string = (String.length a + String.length b)%nat.
Proof.
  induction a as [|c a IH]; simpl; [reflexivity | now rewrite IH].
Qed.

Lemma append_assoc (a b c : string) :
  ((a ++ b) ++ c = a ++ (b ++ c))%string.
Proof.
  induction a as [|x a IH]; simpl; [reflexivity | now rewrite IH].
Qed.

Lemma append_nil_r (a : string) : (a ++ "")%string = a.
Proof.
  induction a as [|x a IH]; simpl; [reflexivity | now rewrite IH].
Qed.

Lemma take_append (n : nat) (a b : string) :
  String.length a = n -> take n (a ++ b)%string = a.
Proof.
  revert n; induction a as [|c a IH]; intros [|n] H; simpl in *;
    try discriminate.
  - now destruct b.
  - f_equal. apply IH. lia.
Qed.

Lemma drop_append (n : nat) (a b : string) :
  String.length a = n -> drop n (a ++ b)%string = b.
Proof.
  revert n; induction a as [|c a IH]; intros [|n] H; simpl in *;
    try discriminate.
  - reflexivity.
  - apply IH. lia.
Qed.

Lemma length_mapString (f : ascii -> ascii) (s : string) :
  String.length (mapString f s) = String.length s.
Proof.
  induction s as [|c s IH]; simpl; [reflexivity | now rewrite IH].
Qed.

Lemma length_repeatChar (c : ascii) (n : nat) :
  String.length (repeatChar c n) = n.
Proof.
  induction n as [|n IH]; simpl; [reflexivity | now rewrite IH].
Qed.

Create Rewrite HintDb str_length.
#[local] Hint Rewrite length_append length_mapString length_repeatChar
  : str_length.

Lemma allString_append (p : ascii -> bool) (a b : string) :
  allString p (a ++ b)%string = allString p a && allString p b.
Proof.
  induction a as [|c a IH]; simpl; [reflexivity|].
  now rewrite IH, andb_assoc.
Qed.

Lemma allString_repeatChar (p : ascii -> bool) (c : ascii) (n : nat) :
  p c = true -> allString p (repeatChar c n) = true.
Proof.
  intros H; induction n as [|n IH]; simpl; [reflexivity | now rewrite H, IH].
Qed.

Lemma charToLowerCase_idem (c : ascii) :
  charToLowerCase (charToLowerCase c) = charToLowerCase c.
Proof. all_chars c. Qed.

Lemma charToLowerCase_upper (c : ascii) :
  charToLowerCase (charToUpperCase c) = charToLowerCase c.
Proof. all_chars c. Qed.

Lemma isHexChar_lower (c : ascii) :
  isHexChar c = true -> isHexChar (charToLowerCase c) = true.
Proof. all_chars c. Qed.

Lemma toLowerCase_idem (s : string) :
  toLowerCase (toLowerCase s) = toLowerCase s.
Proof.
  induction s as [|c s IH]; simpl; [reflexivity|].
  unfold toLowerCase in *; simpl. now rewrite charToLowerCase_idem, IH.
Qed.

Lemma allHex_toLowerCase (s : string) :
  allString isHexChar s = true -> allString isHexChar (toLowerCase s) = true.
Proof.
  unfold toLowerCase.
  induction s as [|c s IH]; simpl; [reflexivity|].
  intros H; apply andb_prop in H as [Hc Hs].
  now rewrite isHexChar_lower, IH.
Qed.

Lemma toLowerCase_applyChecksum (s : string) (hs : list Z) :
  toLowerCase (applyChecksum s hs) = toLowerCase s.
Proof.
  revert hs; induction s as [|c s IH]; intros [|h hs]; simpl; try reflexivity.
  unfold toLowerCase in *; simpl. rewrite IH.
  destruct (8 <=? h); [now rewrite charToLowerCase_upper | reflexivity].
Qed.

(* ===================================================================== *)
(** ** Hexadecimal digits: rendering and reading back *)
(* ===================================================================== *)

Lemma digit_cases (P : Z -> Prop) :
  P 0 -> P 1 -> P 2 -> P 3 -> P 4 -> P 5 -> P 6 -> P 7 -> P 8 -> P 9 ->
  P 10 -> P 11 -> P 12 -> P 13 -> P 14 -> P 15 ->
  forall d, 0 <= d < 16 -> P d.
Proof.
  intros. 
  assert (E : d = 0 \/ d = 1 \/ d = 2 \/ d = 3 \/ d = 4 \/ d = 5 \/ d = 6
              \/ d = 7 \/ d = 8 \/ d = 9 \/ d = 10 \/ d = 11 \/ d = 12
              \/ d = 13 \/ d = 14 \/ d = 15) by lia.
  repeat (destruct E as [E|E]; [subst d; assumption|]).
  subst d; assumption.
Qed.

Lemma hexVal_hexChar (d : Z) : 0 <= d < 16 -> hexVal (hexChar d) = Some d.
Proof. revert d; apply digit_cases; reflexivity. Qed.

Lemma isHexChar_hexChar (d : Z) : 0 <= d < 16 -> isHexChar (hexChar d) = true.
Proof. revert d; apply digit_cases; reflexivity. Qed.

Lemma hexDigits_acc (n : nat) (v : Z) (acc : string) :
  hexDigits n v acc = (hexDigits n v "" ++ acc)%string.
Proof.
  revert v acc; induction n as [|n IH]; intros v acc; simpl; [reflexivity|].
  rewrite IH. rewrite (IH _ (String _ "")). now rewrite append_assoc.
Qed.

Lemma length_hexDigits (n : nat) (v : Z) (acc : string) :
  String.length (hexDigits n v acc) = (n + String.length acc)%nat.
Proof.
  revert v acc; induction n as [|n IH]; intros v acc; simpl; [reflexivity|].
  rewrite IH. simpl. lia.
Qed.

Lemma allHex_hexDigits (n : nat) (v : Z) (acc : string) :
  allString isHexChar acc = true ->
  allString isHexChar (hexDigits n v acc) = true.
Proof.
  revert v acc; induction n as [|n IH]; intros v acc H; simpl; [assumption|].
  apply IH. simpl. rewrite isHexChar_hexChar, H; [reflexivity|].
  apply Z.mod_pos_bound; lia.
Qed.

Lemma hexDigits_plus (n k : nat) (v : Z) (acc : string) :
  hexDigits (n + k) v acc = hexDigits k (v / 16 ^ Z.of_nat n) (hexDigits n v acc).
Proof.
  revert v acc; induction n as [|n IH]; intros v acc.
  - simpl. now rewrite Z.div_1_r.
  - change (S n + k)%nat with (S (n + k)). cbn [hexDigits].
    rewrite IH. f_equal.
    rewrite Nat2Z.inj_succ, Z.pow_succ_r by lia.
    rewrite Z.div_div by lia. reflexivity.
Qed.

Lemma hexDigits_zero (k : nat) (acc : string) :
  hexDigits k 0 acc = (repeatChar "0" k ++ acc)%string.
Proof.
  revert acc; induction k as [|k IH]; intros acc; [reflexivity|].
  cbn [hexDigits]. change (0 / 16) with 0. change (hexChar (0 mod 16)) with "0"%char.
  rewrite IH. clear IH. induction k as [|k IH]; simpl; [reflexivity|].
  now rewrite IH.
Qed.

Lemma hexToZFrom_append (acc : Z) (a b : string) :
  hexToZFrom acc (a ++ b)%string =
  match hexToZFrom acc a with
  | Some x => hexToZFrom x b
  | None => None
  end.
Proof.
  revert acc; induction a as [|c a IH]; intros acc; simpl; [reflexivity|].
  destruct (hexVal c); [apply IH | reflexivity].
Qed.

Lemma hexToZFrom_hexDigits (n : nat) (v acc : Z) :
  0 <= v ->
  hexToZFrom acc (hexDigits n v "") =
  Some (acc * 16 ^ Z.of_nat n + v mod 16 ^ Z.of_nat n).
Proof.
  revert v acc; induction n as [|n IH]; intros v acc Hv.
  - simpl. rewrite Z.mod_1_r. f_equal. lia.
  - cbn [hexDigits]. rewrite hexDigits_acc, hexToZFrom_append.
    rewrite IH by (apply Z.div_pos; lia).
    cbn [hexToZFrom]. rewrite hexVal_hexChar by (apply Z.mod_pos_bound; lia).
    f_equal. rewrite Nat2Z.inj_succ, Z.pow_succ_r by lia.
    assert (P : 0 < 16 ^ Z.of_nat n) by (apply Z.pow_pos_nonneg; lia).
    rewrite (Z.rem_mul_r v 16 (16 ^ Z.of_nat n)) by lia.
    ring.
Qed.

Lemma length_word (u : Z) : String.length (word u) = 64%nat.
Proof. unfold word. now rewrite length_hexDigits. Qed.

#[local] Hint Rewrite length_word : str_length.

Lemma allHex_word (u : Z) : allString isHexChar (word u) = true.
Proof. unfold word. now apply allHex_hexDigits. Qed.

Lemma hexToBigInt_word (u : Z) :
  0 <= u < 2 ^ 256 -> hexToBigInt (word u) = Some u.
Proof.
  intros H. unfold hexToBigInt, word.
  rewrite hexToZFrom_hexDigits by lia.
  f_equal. change (16 ^ Z.of_nat 64) with (2 ^ 256).
  rewrite Z.mod_small; lia.
Qed.

Lemma hexLength_spec (v : Z) :
  0 <= v < 2 ^ 256 ->
  (hexLength v <= 64)%nat /\ v < 16 ^ Z.of_nat (hexLength v).
Proof.
  intros [Hlo Hhi]. unfold hexLength.
  assert (L0 : 0 <= Z.log2 v) by apply Z.log2_nonneg.
  assert (L1 : Z.log2 v < 256).
  { destruct (Z.eq_dec v 0) as [->|]; [reflexivity|].
    apply Z.log2_lt_pow2; lia. }
  assert (Q0 : 0 <= Z.log2 v / 4) by (apply Z.div_pos; lia).
  assert (Q1 : Z.log2 v / 4 < 64) by (apply Z.div_lt_upper_bound; lia).
  split; [lia|].
  rewrite Z2Nat.id by lia.
  change 16 with (2 ^ 4). rewrite <- Z.pow_mul_r by lia.
  apply Z.lt_le_trans with (2 ^ (Z.succ (Z.log2 v))).
  - destruct (Z.eq_dec v 0) as [->|]; [reflexivity|].
    apply Z.log2_spec; lia.
  - apply Z.pow_le_mono_r; [lia|].
    pose proof (Z.mul_div_le (Z.log2 v) 4 ltac:(lia)).
    pose proof (Z.mod_pos_bound (Z.log2 v) 4 ltac:(lia)).
    pose proof (Z.div_mod (Z.log2 v) 4 ltac:(lia)). lia.
Qed.

Lemma padStart_toString16 (v : Z) :
  0 <= v < 2 ^ 256 -> padStart 64 (toString16 v) = word v.
Proof.
  intros H. destruct (hexLength_spec v H) as [Hlen Hlt].
  unfold toString16. destruct (Z.ltb_spec v 0) as [|_]; [lia|].
  unfold padStart, word. rewrite length_hexDigits, Nat.add_0_r.
  replace 64%nat with (hexLength v + (64 - hexLength v))%nat at 2 by lia.
  rewrite hexDigits_plus, Z.div_small by lia.
  now rewrite hexDigits_zero.
Qed.

Lemma strip0x_0x (s : string) : strip0x ("0x" ++ s)%string = s.
Proof. reflexivity. Qed.

Lemma padHex_toString16 (v : Z) :
  0 <= v < 2 ^ 256 ->
  padHex ("0x" ++ toString16 v)%string 32 = Normal ("0x" ++ word v)%string.
Proof.
  intros H. unfold padHex. rewrite strip0x_0x.
  rewrite padStart_toString16 by assumption.
  destruct (hexLength_spec v H) as [Hlen _].
  assert (L : String.length (toString16 v) = hexLength v).
  { unfold toString16. destruct (Z.ltb_spec v 0); [lia|].
    now rewrite length_hexDigits, Nat.add_0_r. }
  rewrite L. destruct (Nat.ltb_spec (32 * 2) (hexLength v)); [lia|reflexivity].
Qed.

(** What the encoder writes for a number: the word of its residue
    modulo 2^256 (two's complement for the signed types). *)
Lemma numberToHex_unsigned (v : Z) :
  0 <= v < 2 ^ 256 ->
  numberToHex v 32 false = Normal ("0x" ++ word v)%string.
Proof.
  intros H. unfold numberToHex.
  change (Z.of_nat 32 * 8) with 256. cbn [andb].
  destruct (Z.ltb_spec (2 ^ 256 - 1) v); [lia|].
  destruct (Z.ltb_spec v 0); [lia|]. cbn [orb].
  now apply padHex_toString16.
Qed.

Lemma numberToHex_signed (v : Z) :
  - 2 ^ 255 <= v < 2 ^ 255 ->
  numberToHex v 32 true = Normal ("0x" ++ word (v mod 2 ^ 256))%string.
Proof.
  intros H. unfold numberToHex.
  change (Z.of_nat 32 * 8) with 256.
  change (Z.shiftl 1 (256 - 1)) with (2 ^ 255).
  change (Z.shiftl 1 256) with (2 ^ 256).
  destruct (Z.ltb_spec (2 ^ 255 - 1) v); [lia|].
  destruct (Z.ltb_spec v (- (2 ^ 255 - 1) - 1)); [lia|]. cbn [orb andb].
  destruct (Z.ltb_spec v 0).
  - replace (v mod 2 ^ 256) with (2 ^ 256 + v).
    + apply padHex_toString16. lia.
    + apply Z.mod_unique with (q := -1); lia.
  - rewrite Z.mod_small by lia. apply padHex_toString16. lia.
Qed.

Lemma numberToHex_out_of_range (v : Z) :
  v < 0 \/ 2 ^ 256 <= v ->
  numberToHex v 32 false = Throw (IntegerOutOfRangeError v false 32).
Proof.
  intros H. unfold numberToHex.
  change (Z.of_nat 32 * 8) with 256.
  destruct (Z.ltb_spec (2 ^ 256 - 1) v); [reflexivity|].
  destruct (Z.ltb_spec v 0); [reflexivity | lia].
Qed.

Lemma encodeNumber_uint256 (v : Z) :
  0 <= v < 2 ^ 256 ->
  encodeNumber v false 256 = Normal ("0x" ++ word v)%string.
Proof.
  intros H. unfold encodeNumber.
  change (Z.of_nat 256 - 0) with 256.
  destruct (Z.ltb_spec (2 ^ 256 - 1) v); [lia|].
  destruct (Z.ltb_spec v 0); [lia|]. cbn [orb].
  now apply numberToHex_unsigned.
Qed.

Lemma encodeNumber_uint256_out_of_range (v : Z) :
  v < 0 \/ 2 ^ 256 <= v ->
  encodeNumber v false 256 = Throw (IntegerOutOfRangeError v false 32).
Proof.
  intros H. unfold encodeNumber.
  change (Z.of_nat 256 - 0) with 256. change (Z.of_nat 256 / 8) with 32.
  destruct (Z.ltb_spec (2 ^ 256 - 1) v); [reflexivity|].
  destruct (Z.ltb_spec v 0); [reflexivity | lia].
Qed.

Lemma encodeNumber_int128 (v : Z) :
  - 2 ^ 127 <= v < 2 ^ 127 ->
  encodeNumber v true 128 = Normal ("0x" ++ word (v mod 2 ^ 256))%string.
Proof.
  intros H. unfold encodeNumber.
  change (Z.of_nat 128 - 1) with 127.
  destruct (Z.ltb_spec (2 ^ 127 - 1) v); [lia|].
  destruct (Z.ltb_spec v (- (2 ^ 127 - 1) - 1)); [lia|]. cbn [orb].
  apply numberToHex_signed. lia.
Qed.

Lemma decodeNumber_unsigned (v : Z) :
  0 <= v < 2 ^ 256 -> decodeNumber false (word v) = Some v.
Proof.
  intros H. unfold decodeNumber. now rewrite hexToBigInt_word.
Qed.

Lemma decodeNumber_signed (v : Z) :
  - 2 ^ 255 <= v < 2 ^ 255 ->
  decodeNumber true (word (v mod 2 ^ 256)) = Some v.
Proof.
  intros H. unfold decodeNumber.
  rewrite hexToBigInt_word by (apply Z.mod_pos_bound; lia).
  change (Z.shiftl 1 255) with (2 ^ 255). cbn [andb].
  destruct (Z.ltb_spec (2 ^ 255 - 1) (v mod 2 ^ 256)) as [G|G]; f_equal.
  - destruct (Z.lt_ge_cases v 0).
    + rewrite <- (Z.mod_unique v (2 ^ 256) (-1) (2 ^ 256 + v)); lia.
    + rewrite Z.mod_small in G; lia.
  - destruct (Z.lt_ge_cases v 0).
    + rewrite <- (Z.mod_unique v (2 ^ 256) (-1) (2 ^ 256 + v)) in G; lia.
    + rewrite Z.mod_small; lia.
Qed.

(* ===================================================================== *)
(** ** Addresses *)
(* ===================================================================== *)

Lemma addressRegexTest_inv (a : string) :
  addressRegexTest a = true ->
  exists body, a = ("0x" ++ body)%string
            /\ String.length body = 40%nat
            /\ allString isHexChar body = true.
Proof.
  unfold addressRegexTest, startsWith0x. intros H.
  apply andb_prop in H as [H H3]. apply andb_prop in H as [H1 H2].
  destruct a as [|c1 [|c2 body]]; try discriminate.
  cbn [take] in H1. apply String.eqb_eq in H1. injection H1 as -> ->.
  exists body. repeat split.
  - apply Nat.eqb_eq in H2. simpl in H2. lia.
  - exact H3.
Qed.

Lemma isAddress_regex (a : string) :
  isAddress a = true -> addressRegexTest a = true.
Proof.
  unfold isAddress. destruct (addressRegexTest a); [reflexivity | discriminate].
Qed.

Lemma toLowerCase_0x (body : string) :
  toLowerCase ("0x" ++ body)%string = ("0x" ++ toLowerCase body)%string.
Proof. reflexivity. Qed.

Lemma encodeAddress_valid (a : string) :
  isAddress a = true ->
  encodeAddress a = Normal ("0x" ++ addressWord a)%string.
Proof.
  intros H. unfold encodeAddress. rewrite H. cbn [negb].
  destruct (addressRegexTest_inv a (isAddress_regex a H)) as (body & -> & L & _).
  rewrite toLowerCase_0x. unfold padHex. rewrite strip0x_0x.
  unfold padStart, toLowerCase. rewrite length_mapString, L.
  reflexivity.
Qed.

Lemma encodeAddress_invalid (a : string) :
  isAddress a = false -> encodeAddress a = Throw (InvalidAddressError a).
Proof. intros H. unfold encodeAddress. now rewrite H. Qed.

Lemma length_addressWord (a : string) :
  isAddress a = true -> String.length (addressWord a) = 64%nat.
Proof.
  intros H.
  destruct (addressRegexTest_inv a (isAddress_regex a H)) as (body & -> & L & _).
  unfold addressWord, toLowerCase.
  change (drop 2 ("0x" ++ body)%string) with body.
  autorewrite with str_length. lia.
Qed.

Lemma checksumAddress_lower (body : string) :
  checksumAddress ("0x" ++ toLowerCase body)%string
  = checksumAddress ("0x" ++ body)%string.
Proof.
  unfold checksumAddress.
  change (drop 2 ("0x" ++ toLowerCase body)%string) with (toLowerCase body).
  change (drop 2 ("0x" ++ body)%string) with body.
  now rewrite toLowerCase_idem.
Qed.

Lemma decodeAddress_addressWord (a : string) :
  isAddress a = true ->
  decodeAddress (addressWord a) = Some (checksumAddress a).
Proof.
  intros H.
  destruct (addressRegexTest_inv a (isAddress_regex a H)) as (body & -> & L & A).
  unfold decodeAddress, addressWord.
  change (drop 2 ("0x" ++ body)%string) with body.
  rewrite allString_append, allString_repeatChar by reflexivity.
  rewrite allHex_toLowerCase by assumption. cbn [andb].
  rewrite drop_append by apply length_repeatChar.
  now rewrite checksumAddress_lower.
Qed.

(** The checksum only changes the case of letters: it renders the same
    address. *)
Lemma checksumAddress_same_address (a : string) :
  isAddress a = true ->
  toLowerCase (checksumAddress a) = toLowerCase a.
Proof.
  intros H.
  destruct (addressRegexTest_inv a (isAddress_regex a H)) as (body & -> & L & A).
  unfold checksumAddress.
  change (drop 2 ("0x" ++ body)%string) with body.
  rewrite !toLowerCase_0x, toLowerCase_applyChecksum.
  now rewrite toLowerCase_idem.
Qed.

(** An accepted address that has an upper-case letter is already in its
    checksum rendering. *)
Lemma checksumAddress_canonical (a : string) :
  isAddress a = true -> toLowerCase a <> a -> checksumAddress a = a.
Proof.
  unfold isAddress. intros H N.
  destruct (addressRegexTest a); [|discriminate]. cbn [negb] in H.
  destruct (String.eqb_spec (toLowerCase a) a) as [E|_]; [contradiction|].
  now apply String.eqb_eq.
Qed.

(* ===================================================================== *)
(** ** Selectors and the layout of encoded calls *)
(* ===================================================================== *)

Lemma approve_signature :
  formatAbiItem approveAbi = "approve(address,uint256)".
Proof. reflexivity. Qed.

Lemma exchange_signature :
  formatAbiItem exchangeAbi = "exchange(int128,int128,uint256,uint256,address)".
Proof. reflexivity. Qed.

Lemma get_dy_signature :
  formatAbiItem get_dyAbi = "get_dy(int128,int128,uint256)".
Proof. reflexivity. Qed.

Lemma approve_selector :
  toFunctionSelector (formatAbiItem approveAbi) = "0x095ea7b3".
Proof. vm_compute. reflexivity. Qed.

Lemma exchange_selector :
  toFunctionSelector (formatAbiItem exchangeAbi) = "0xddc1f59d".
Proof. vm_compute. reflexivity. Qed.

Lemma decodeFunctionData_selector (abiItem : AbiFunction) (sel body : string) :
  toFunctionSelector (formatAbiItem abiItem) = ("0x" ++ sel)%string ->
  String.length sel = 8%nat ->
  decodeFunctionData abiItem ("0x" ++ sel ++ body)%string
  = decodeAbiParameters (inputs abiItem) body.
Proof.
  intros E L. unfold decodeFunctionData. rewrite E.
  unfold sliceHex. rewrite strip0x_0x.
  change (drop (2 * 0) (sel ++ body)%string) with (sel ++ body)%string.
  rewrite take_append by (rewrite L; reflexivity).
  rewrite String.eqb_refl.
  change ("0x" ++ sel ++ body)%string with (("0x" ++ sel) ++ body)%string.
  rewrite drop_append; [reflexivity|].
  rewrite length_append, L. reflexivity.
Qed.

Lemma decodeAbiParameters_cons (p : AbiParameter) (ps : list AbiParameter)
  (w rest : string) :
  String.length w = 64%nat ->
  decodeAbiParameters (p :: ps) (w ++ rest)%string =
  match decodeParam (type p) w, decodeAbiParameters ps rest with
  | Some v, Some vs => Some (v :: vs)
  | _, _ => None
  end.
Proof.
  intros L. cbn [decodeAbiParameters].
  rewrite length_append, L.
  destruct (Nat.ltb_spec (64 + String.length rest) 64); [lia|].
  now rewrite take_append, drop_append by assumption.
Qed.

Lemma encode_approve (spender : Address) (amount : Z) :
  isAddress spender = true -> uint256 amount ->
  encodeFunctionData approveAbi [VAddress spender; VBigInt amount]
  = Normal (approveLayout spender amount).
Proof.
  intros HA HU. unfold encodeFunctionData. rewrite approve_selector.
  unfold encodeAbiParameters.
  cbn [inputs approveAbi List.length Nat.eqb negb prepareParams prepareParam type].
  rewrite (encodeAddress_valid _ HA), (encodeNumber_uint256 _ HU).
  cbn [bindC]. unfold concatHex. cbn [fold_left].
  rewrite !strip0x_0x. change (strip0x "0x095ea7b3") with "095ea7b3".
  unfold approveLayout. cbn [append]. reflexivity.
Qed.

Lemma encode_exchange (i j _dx _min_dy : Z) (_receiver : Address) :
  int128 i -> int128 j -> uint256 _dx -> uint256 _min_dy ->
  isAddress _receiver = true ->
  encodeFunctionData exchangeAbi
    [VBigInt i; VBigInt j; VBigInt _dx; VBigInt _min_dy; VAddress _receiver]
  = Normal (exchangeLayout i j _dx _min_dy _receiver).
Proof.
  intros Hi Hj Hdx Hm HA. unfold encodeFunctionData. rewrite exchange_selector.
  unfold encodeAbiParameters.
  cbn [inputs exchangeAbi List.length Nat.eqb negb prepareParams prepareParam type].
  rewrite (encodeNumber_int128 _ Hi), (encodeNumber_int128 _ Hj).
  rewrite (encodeNumber_uint256 _ Hdx), (encodeNumber_uint256 _ Hm).
  rewrite (encodeAddress_valid _ HA).
  cbn [bindC]. unfold concatHex. cbn [fold_left].
  rewrite !strip0x_0x. change (strip0x "0xddc1f59d") with "ddc1f59d".
  unfold exchangeLayout. cbn [append].
  now rewrite ?append_assoc.
Qed.

Lemma decode_approve (spender : Address) (amount : Z) :
  isAddress spender = true -> uint256 amount ->
  decodeFunctionData approveAbi (approveLayout spender amount)
  = Some [VAddress (checksumAddress spender); VBigInt amount].
Proof.
  intros HA HU. unfold approveLayout.
  rewrite (decodeFunctionData_selector _ _ _ approve_selector) by reflexivity.
  cbn [inputs approveAbi].
  rewrite decodeAbiParameters_cons by now apply length_addressWord.
  rewrite <- (append_nil_r (word amount)).
  rewrite decodeAbiParameters_cons by apply length_word.
  cbn [type decodeParam decodeAbiParameters].
  rewrite (decodeAddress_addressWord _ HA), (decodeNumber_unsigned _ HU).
  reflexivity.
Qed.

Lemma decode_exchange (i j _dx _min_dy : Z) (_receiver : Address) :
  int128 i -> int128 j -> uint256 _dx -> uint256 _min_dy ->
  isAddress _receiver = true ->
  decodeFunctionData exchangeAbi (exchangeLayout i j _dx _min_dy _receiver)
  = Some [VBigInt i; VBigInt j; VBigInt _dx; VBigInt _min_dy;
          VAddress (checksumAddress _receiver)].
Proof.
  intros Hi Hj Hdx Hm HA. unfold exchangeLayout.
  rewrite (decodeFunctionData_selector _ _ _ exchange_selector) by reflexivity.
  cbn [inputs exchangeAbi].
  rewrite <- (append_nil_r (addressWord _receiver)).
  rewrite !decodeAbiParameters_cons
    by first [apply length_word | now apply length_addressWord].
  cbn [type decodeParam decodeAbiParameters].
  unfold int128 in Hi, Hj.
  rewrite !decodeNumber_signed by lia.
  rewrite (decodeNumber_unsigned _ Hdx), (decodeNumber_unsigned _ Hm).
  rewrite (decodeAddress_addressWord _ HA).
  reflexivity.
Qed.

(* ===================================================================== *)
(** ** The slippage adjuster *)
(* ===================================================================== *)

Lemma adjusted_nonneg_floor (amount slippageBps : Z) :
  0 <= amount -> 0 <= slippageBps <= 10000 ->
  calculateAdjustedMinOutput amount (Some slippageBps)
  = amount * (10000 - slippageBps) / 10000.
Proof.
  intros Ha Hb. unfold calculateAdjustedMinOutput.
  apply Z.quot_div_nonneg; nia.
Qed.

Lemma adjusted_default_range (quote : Z) :
  uint256 quote -> uint256 (calculateAdjustedMinOutput quote None).
Proof.
  unfold uint256. intros H.
  change (calculateAdjustedMinOutput quote None)
    with (calculateAdjustedMinOutput quote (Some 3)).
  rewrite adjusted_nonneg_floor by lia.
  split.
  - apply Z.div_pos; lia.
  - apply Z.le_lt_trans with quote; [|lia].
    apply Z.div_le_upper_bound; lia.
Qed.

(** C1.  For an unsigned amount and a tolerance in [0, 10000) the adjuster
    returns floor(amount * (10000 - slippageBps) / 10000), computed on
    integers only; the omitted tolerance is 3; adjust(1_000_000, 3) is
    999_700 and adjust(100, 9999) is 0. *)
Theorem calculateAdjustedMinOutput_floor (amount slippageBps : Z) :
  0 <= amount -> 0 <= slippageBps < 10000 ->
  calculateAdjustedMinOutput amount (Some slippageBps)
    = amount * (10000 - slippageBps) / 10000
  /\ calculateAdjustedMinOutput amount None
    = calculateAdjustedMinOutput amount (Some 3)
  /\ calculateAdjustedMinOutput amount None = amount * 9997 / 10000
  /\ calculateAdjustedMinOutput 1000000 (Some 3) = 999700
  /\ calculateAdjustedMinOutput 100 (Some 9999) = 0.
Proof.
  intros Ha Hb. split; [|split; [|split; [|split]]]; try reflexivity.
  - apply adjusted_nonneg_floor; lia.
  - change (calculateAdjustedMinOutput amount None)
      with (calculateAdjustedMinOutput amount (Some 3)).
    now rewrite adjusted_nonneg_floor by lia.
Qed.

Lemma calculateAdjustedMinOutput_floor_witness :
  calculateAdjustedMinOutput 123456789 (Some 25)
    = 123456789 * (10000 - 25) / 10000
  /\ calculateAdjustedMinOutput 123456789 None
    = calculateAdjustedMinOutput 123456789 (Some 3)
  /\ calculateAdjustedMinOutput 123456789 None = 123456789 * 9997 / 10000
  /\ calculateAdjustedMinOutput 1000000 (Some 3) = 999700
  /\ calculateAdjustedMinOutput 100 (Some 9999) = 0.
Proof.
  apply (calculateAdjustedMinOutput_floor 123456789 25); lia.
Defined.

(** C2, as the specification has it, fails: at slippageBps = 10000 the
    call completes normally with 0 and throws nothing. *)
Lemma adjust_10000_returns_zero :
  adjust 100 10000 = Normal 0
  /\ ~ (exists e, adjust 100 10000 = Throw e).
Proof.
  split; [reflexivity|].
  intros [e H]. discriminate H.
Qed.

(** C2, amended.  The adjuster checks nothing: for slippageBps >= 10000
    and an unsigned amount the call completes normally with the truncated
    quotient, which is 0 at slippageBps = 10000 and never positive. *)
Theorem calculateAdjustedMinOutput_unvalidated (amount slippageBps : Z) :
  0 <= amount -> 10000 <= slippageBps ->
  adjust amount slippageBps
    = Normal (- (amount * (slippageBps - 10000) / 10000))
  /\ calculateAdjustedMinOutput amount (Some slippageBps) <= 0
  /\ calculateAdjustedMinOutput amount (Some 10000) = 0.
Proof.
  intros Ha Hb.
  assert (E : calculateAdjustedMinOutput amount (Some slippageBps)
              = - (amount * (slippageBps - 10000) / 10000)).
  { unfold calculateAdjustedMinOutput.
    replace (amount * (10000 - slippageBps))
      with (- (amount * (slippageBps - 10000))) by ring.
    rewrite Z.quot_opp_l by lia. f_equal.
    apply Z.quot_div_nonneg; nia. }
  split; [|split].
  - unfold adjust. now rewrite E.
  - rewrite E.
    assert (0 <= amount * (slippageBps - 10000) / 10000)
      by (apply Z.div_pos; nia).
    lia.
  - unfold calculateAdjustedMinOutput.
    replace (amount * (10000 - 10000)) with 0 by ring. reflexivity.
Qed.

Lemma calculateAdjustedMinOutput_unvalidated_witness :
  adjust 100 20000 = Normal (- (100 * (20000 - 10000) / 10000))
  /\ calculateAdjustedMinOutput 100 (Some 20000) <= 0
  /\ calculateAdjustedMinOutput 100 (Some 10000) = 0.
Proof.
  apply (calculateAdjustedMinOutput_unvalidated 100 20000); lia.
Defined.

(** C4.  For an unsigned amount and a tolerance in [0, 9999] the adjusted
    value never exceeds the amount, is the amount at tolerance 0, and is 0
    for the amount 0. *)
Theorem calculateAdjustedMinOutput_bounds (a slippageBps : Z) :
  0 <= a -> 0 <= slippageBps <= 9999 ->
  calculateAdjustedMinOutput a (Some slippageBps) <= a
  /\ calculateAdjustedMinOutput a (Some 0) = a
  /\ calculateAdjustedMinOutput 0 (Some slippageBps) = 0.
Proof.
  intros Ha Hb. split; [|split].
  - rewrite adjusted_nonneg_floor by lia.
    apply Z.div_le_upper_bound; nia.
  - unfold calculateAdjustedMinOutput.
    replace (a * (10000 - 0)) with (a * 10000) by ring.
    apply Z.quot_mul. lia.
  - reflexivity.
Qed.

Lemma calculateAdjustedMinOutput_bounds_witness :
  calculateAdjustedMinOutput 5000 (Some 9999) <= 5000
  /\ calculateAdjustedMinOutput 5000 (Some 0) = 5000
  /\ calculateAdjustedMinOutput 0 (Some 9999) = 0.
Proof.
  apply (calculateAdjustedMinOutput_bounds 5000 9999); lia.
Defined.

(* ===================================================================== *)
(** ** The approval encoder *)
(* ===================================================================== *)

Lemma generateApproveCallData_valid (spender : Address) (amount : Z) :
  isAddress spender = true -> uint256 amount ->
  generateApproveCallData spender amount
  = Normal (approveLayout spender amount).
Proof. intros HA HU. now apply encode_approve. Qed.

Lemma length_approveLayout (spender : Address) (amount : Z) :
  isAddress spender = true ->
  String.length (approveLayout spender amount) = 138%nat.
Proof.
  intros HA. unfold approveLayout.
  autorewrite with str_length. now rewrite (length_addressWord _ HA).
Qed.

(** C9.  For a well-formed spender and an amount in the uint256 range the
    approval calldata is 68 bytes: the selector 0x095ea7b3 of
    approve(address,uint256), the spender left-padded with zeros to 32
    bytes, and the amount as a 32-byte word, most significant digit
    first. *)
Theorem generateApproveCallData_layout (spender : Address) (amount : Z) :
  isAddress spender = true -> 0 <= amount < 2 ^ 256 ->
  exists data,
    generateApproveCallData spender amount = Normal data
    /\ data = ("0x095ea7b3" ++ repeatChar "0" 24 ++ toLowerCase (drop 2 spender)
                ++ hexDigits 64 amount "")%string
    /\ size data = 68%nat
    /\ toFunctionSelector "approve(address,uint256)" = "0x095ea7b3"
    /\ sliceHex data 0 4 = "0x095ea7b3"
    /\ String.length (repeatChar "0" 24 ++ toLowerCase (drop 2 spender)) = 64%nat
    /\ String.length (hexDigits 64 amount "") = 64%nat
    /\ hexToBigInt (hexDigits 64 amount "") = Some amount.
Proof.
  intros HA HU. exists (approveLayout spender amount).
  split; [now apply generateApproveCallData_valid|].
  split; [unfold approveLayout, addressWord; cbn [append];
          now rewrite append_assoc|].
  split; [unfold size; now rewrite length_approveLayout|].
  split; [exact approve_selector|].
  split; [reflexivity|].
  split; [exact (length_addressWord _ HA)|].
  split; [apply length_word | now apply hexToBigInt_word].
Qed.

Lemma generateApproveCallData_layout_witness :
  exists data,
    generateApproveCallData curvePool 100000000 = Normal data
    /\ data = ("0x095ea7b3" ++ repeatChar "0" 24 ++ toLowerCase (drop 2 curvePool)
                ++ hexDigits 64 100000000 "")%string
    /\ size data = 68%nat
    /\ toFunctionSelector "approve(address,uint256)" = "0x095ea7b3"
    /\ sliceHex data 0 4 = "0x095ea7b3"
    /\ String.length (repeatChar "0" 24 ++ toLowerCase (drop 2 curvePool)) = 64%nat
    /\ String.length (hexDigits 64 100000000 "") = 64%nat
    /\ hexToBigInt (hexDigits 64 100000000 "") = Some 100000000.
Proof.
  apply (generateApproveCallData_layout curvePool 100000000);
    [vm_compute; reflexivity | lia].
Defined.

(** C5.  For a well-formed spender, the calldata of approve(spenderX, 100)
    and of approve(spenderX, 250) differ, and each decodes to its own
    (spender, amount) pair; the decoder renders the spender with its
    checksum, which is the same address (equal up to the case of its
    letters, and equal to spenderX itself when spenderX carries a
    checksum). *)
Theorem generateApproveCallData_roundtrip (spenderX : Address) :
  isAddress spenderX = true ->
  exists d100 d250,
    generateApproveCallData spenderX 100 = Normal d100
    /\ generateApproveCallData spenderX 250 = Normal d250
    /\ d100 <> d250
    /\ decodeFunctionData approveAbi d100
       = Some [VAddress (checksumAddress spenderX); VBigInt 100]
    /\ decodeFunctionData approveAbi d250
       = Some [VAddress (checksumAddress spenderX); VBigInt 250]
    /\ toLowerCase (checksumAddress spenderX) = toLowerCase spenderX
    /\ (toLowerCase spenderX <> spenderX -> checksumAddress spenderX = spenderX).
Proof.
  intros HA.
  assert (U100 : uint256 100) by in_range.
  assert (U250 : uint256 250) by in_range.
  exists (approveLayout spenderX 100), (approveLayout spenderX 250).
  split; [now apply generateApproveCallData_valid|].
  split; [now apply generateApproveCallData_valid|].
  split.
  - intros E.
    pose proof (decode_approve spenderX 100 HA U100) as D1.
    rewrite E, (decode_approve spenderX 250 HA U250) in D1.
    discriminate D1.
  - split; [now apply decode_approve|].
    split; [now apply decode_approve|].
    split; [now apply checksumAddress_same_address|].
    now apply checksumAddress_canonical.
Qed.

Lemma generateApproveCallData_roundtrip_witness :
  exists d100 d250,
    generateApproveCallData curvePool 100 = Normal d100
    /\ generateApproveCallData curvePool 250 = Normal d250
    /\ d100 <> d250
    /\ decodeFunctionData approveAbi d100
       = Some [VAddress (checksumAddress curvePool); VBigInt 100]
    /\ decodeFunctionData approveAbi d250
       = Some [VAddress (checksumAddress curvePool); VBigInt 250]
    /\ toLowerCase (checksumAddress curvePool) = toLowerCase curvePool
    /\ (toLowerCase curvePool <> curvePool -> checksumAddress curvePool = curvePool).
Proof.
  apply (generateApproveCallData_roundtrip curvePool).
  vm_compute; reflexivity.
Defined.

(* ===================================================================== *)
(** ** The exchange encoder *)
(* ===================================================================== *)

Section ExchangeRun.

Variable publicClient : PublicClient.
Variables (pool : Address) (i j _dx : Z) (_receiver : Address) (tr : Trace).

(** One run: the request is made first, whatever the arguments; the
    outcome is the client's rejection, or the encoding from its quote. *)
Lemma generateExchangeCallData_run :
  generateExchangeCallData publicClient pool i j _dx _receiver tr
  = (bindC (readContract publicClient tr (get_dyRequest pool i j _dx))
       (fun quote =>
          encodeFunctionData exchangeAbi (exchangeArgs i j _dx quote _receiver)),
     tr ++ [get_dyRequest pool i j _dx]).
Proof.
  unfold generateExchangeCallData, await, getMinDy, resolve.
  fold (get_dyRequest pool i j _dx).
  destruct (readContract publicClient tr (get_dyRequest pool i j _dx));
    reflexivity.
Qed.

Lemma generateExchangeCallData_valid (quote : Z) :
  readContract publicClient tr (get_dyRequest pool i j _dx) = Normal quote ->
  int128 i -> int128 j -> uint256 _dx -> uint256 quote ->
  isAddress _receiver = true ->
  generateExchangeCallData publicClient pool i j _dx _receiver tr
  = (Normal (exchangeLayout i j _dx
               (calculateAdjustedMinOutput quote None) _receiver),
     tr ++ [get_dyRequest pool i j _dx]).
Proof.
  intros Q Hi Hj Hdx Hq HA.
  rewrite generateExchangeCallData_run, Q. cbn [bindC]. unfold exchangeArgs.
  rewrite encode_exchange; auto using adjusted_default_range.
Qed.


End ExchangeRun.

Lemma exchangeLayout_head (i j _dx _min_dy : Z) (_receiver : Address) :
  exchangeLayout i j _dx _min_dy _receiver
  = (exchangeHead i j _dx ++ word _min_dy ++ addressWord _receiver)%string.
Proof.
  unfold exchangeLayout, exchangeHead. cbn [append].
  now rewrite !append_assoc.
Qed.

Lemma length_exchangeHead (i j _dx : Z) :
  String.length (exchangeHead i j _dx) = 202%nat.
Proof.
  unfold exchangeHead. now autorewrite with str_length.
Qed.

(** C3.  With i = 1, j = 0, dx = 100_000_000, a well-formed receiver R and
    a client that answers the get_dy request with 99_000_000, the exchange
    calldata decodes, under the exchange signature, to
    (1, 0, 100_000_000, 98_970_300, R), where 98_970_300 is
    floor(99_000_000 * 9997 / 10000) and R comes back in its checksum
    rendering (the same address). *)
Theorem generateExchangeCallData_example (publicClient : PublicClient)
  (pool R : Address) (tr : Trace) :
  isAddress R = true ->
  readContract publicClient tr (get_dyRequest pool 1 0 100000000)
    = Normal 99000000 ->
  exists data,
    generateExchangeCallData publicClient pool 1 0 100000000 R tr
      = (Normal data, tr ++ [get_dyRequest pool 1 0 100000000])
    /\ toFunctionSelector "exchange(int128,int128,uint256,uint256,address)"
       = sliceHex data 0 4
    /\ decodeFunctionData exchangeAbi data
       = Some [VBigInt 1; VBigInt 0; VBigInt 100000000; VBigInt 98970300;
               VAddress (checksumAddress R)]
    /\ toLowerCase (checksumAddress R) = toLowerCase R
    /\ (toLowerCase R <> R -> checksumAddress R = R)
    /\ 98970300 = 99000000 * 9997 / 10000.
Proof.
  intros HA Q.
  assert (I1 : int128 1) by in_range.
  assert (I0 : int128 0) by in_range.
  assert (Udx : uint256 100000000) by in_range.
  assert (Uq : uint256 99000000) by in_range.
  exists (exchangeLayout 1 0 100000000 98970300 R).
  split; [exact (generateExchangeCallData_valid _ _ _ _ _ _ _ _ Q I1 I0 Udx Uq HA)|].
  split; [rewrite <- exchange_signature, exchange_selector; reflexivity|].
  split; [apply decode_exchange; auto; in_range|].
  split; [now apply checksumAddress_same_address|].
  split; [now apply checksumAddress_canonical | reflexivity].
Qed.

Lemma generateExchangeCallData_example_witness :
  exists data,
    generateExchangeCallData (constantQuoter 99000000) curvePool 1 0 100000000
        usdcMainnet []
      = (Normal data, [] ++ [get_dyRequest curvePool 1 0 100000000])
    /\ toFunctionSelector "exchange(int128,int128,uint256,uint256,address)"
       = sliceHex data 0 4
    /\ decodeFunctionData exchangeAbi data
       = Some [VBigInt 1; VBigInt 0; VBigInt 100000000; VBigInt 98970300;
               VAddress (checksumAddress usdcMainnet)]
    /\ toLowerCase (checksumAddress usdcMainnet) = toLowerCase usdcMainnet
    /\ (toLowerCase usdcMainnet <> usdcMainnet ->
        checksumAddress usdcMainnet = usdcMainnet)
    /\ 98970300 = 99000000 * 9997 / 10000.
Proof.
  apply (generateExchangeCallData_example (constantQuoter 99000000)
           curvePool usdcMainnet []);
    [vm_compute; reflexivity | reflexivity].
Defined.

(** C7.  Two invocations in a row make two requests, each carrying the
    [_dx] of its own invocation, and the second outcome is computed from
    the client's answer to the second request alone; for different [_dx]
    the two requests differ. *)
Theorem generateExchangeCallData_fresh_quote (publicClient : PublicClient)
  (pool : Address) (i j dx1 dx2 : Z) (_receiver : Address) (tr : Trace) :
  let run1 := generateExchangeCallData publicClient pool i j dx1 _receiver tr in
  let run2 :=
    generateExchangeCallData publicClient pool i j dx2 _receiver (snd run1) in
  snd run1 = tr ++ [get_dyRequest pool i j dx1]
  /\ snd run2 = tr ++ [get_dyRequest pool i j dx1; get_dyRequest pool i j dx2]
  /\ rc_args (get_dyRequest pool i j dx1) = [VBigInt i; VBigInt j; VBigInt dx1]
  /\ rc_args (get_dyRequest pool i j dx2) = [VBigInt i; VBigInt j; VBigInt dx2]
  /\ fst run2
     = bindC (readContract publicClient (tr ++ [get_dyRequest pool i j dx1])
                (get_dyRequest pool i j dx2))
         (fun quote2 =>
            encodeFunctionData exchangeAbi
              (exchangeArgs i j dx2 quote2 _receiver))
  /\ (dx1 <> dx2 -> get_dyRequest pool i j dx1 <> get_dyRequest pool i j dx2).
Proof.
  intros run1 run2. subst run1 run2.
  rewrite !generateExchangeCallData_run. cbn [fst snd].
  split; [reflexivity|].
  split; [now rewrite <- app_assoc|].
  split; [reflexivity|].
  split; [reflexivity|].
  split; [reflexivity|].
  intros N E. apply N. now injection E.
Qed.

Lemma generateExchangeCallData_fresh_quote_witness :
  let run1 :=
    generateExchangeCallData followingQuoter curvePool 1 0 100000000
      usdcMainnet [] in
  let run2 :=
    generateExchangeCallData followingQuoter curvePool 1 0 99990000
      usdcMainnet (snd run1) in
  snd run1 = [] ++ [get_dyRequest curvePool 1 0 100000000]
  /\ snd run2 = [] ++ [get_dyRequest curvePool 1 0 100000000;
                       get_dyRequest curvePool 1 0 99990000]
  /\ rc_args (get_dyRequest curvePool 1 0 100000000)
     = [VBigInt 1; VBigInt 0; VBigInt 100000000]
  /\ rc_args (get_dyRequest curvePool 1 0 99990000)
     = [VBigInt 1; VBigInt 0; VBigInt 99990000]
  /\ fst run2
     = bindC (readContract followingQuoter
                ([] ++ [get_dyRequest curvePool 1 0 100000000])
                (get_dyRequest curvePool 1 0 99990000))
         (fun quote2 =>
            encodeFunctionData exchangeAbi
              (exchangeArgs 1 0 99990000 quote2 usdcMainnet))
  /\ (100000000 <> 99990000 ->
      get_dyRequest curvePool 1 0 100000000
      <> get_dyRequest curvePool 1 0 99990000).
Proof.
  exact (generateExchangeCallData_fresh_quote followingQuoter curvePool
           1 0 100000000 99990000 usdcMainnet []).
Defined.

(** The second invocation of the run above encodes the quote of its own
    request (98_990_100 adjusted to 98_960_402), not the first one. *)
Example fresh_quote_run :
  let run1 :=
    generateExchangeCallData followingQuoter curvePool 1 0 100000000
      usdcMainnet [] in
  let run2 :=
    generateExchangeCallData followingQuoter curvePool 1 0 99990000
      usdcMainnet (snd run1) in
  fst run1 = Normal (exchangeLayout 1 0 100000000 98970300 usdcMainnet)
  /\ fst run2 = Normal (exchangeLayout 1 0 99990000 98960402 usdcMainnet).
Proof. vm_compute. split; reflexivity. Qed.


(** C10.  In the exchange calldata the words of i, j, _dx and _receiver
    are the arguments themselves, whatever the client answers: two runs
    on the same arguments with different quotes agree on everything in
    front of and behind the _min_dy word, and that word is the adjusted
    quote. *)
Theorem generateExchangeCallData_frame (client1 client2 : PublicClient)
  (pool : Address) (i j _dx : Z) (_receiver : Address) (tr1 tr2 : Trace)
  (quote1 quote2 : Z) :
  int128 i -> int128 j -> uint256 _dx -> isAddress _receiver = true ->
  uint256 quote1 -> uint256 quote2 ->
  readContract client1 tr1 (get_dyRequest pool i j _dx) = Normal quote1 ->
  readContract client2 tr2 (get_dyRequest pool i j _dx) = Normal quote2 ->
  exists data1 data2,
    fst (generateExchangeCallData client1 pool i j _dx _receiver tr1)
      = Normal data1
    /\ fst (generateExchangeCallData client2 pool i j _dx _receiver tr2)
      = Normal data2
    /\ decodeFunctionData exchangeAbi data1
       = Some [VBigInt i; VBigInt j; VBigInt _dx;
               VBigInt (calculateAdjustedMinOutput quote1 None);
               VAddress (checksumAddress _receiver)]
    /\ decodeFunctionData exchangeAbi data2
       = Some [VBigInt i; VBigInt j; VBigInt _dx;
               VBigInt (calculateAdjustedMinOutput quote2 None);
               VAddress (checksumAddress _receiver)]
    /\ take 202 data1 = take 202 data2
    /\ drop 266 data1 = drop 266 data2
    /\ take 64 (drop 202 data1)
       = hexDigits 64 (calculateAdjustedMinOutput quote1 None) ""
    /\ take 64 (drop 202 data2)
       = hexDigits 64 (calculateAdjustedMinOutput quote2 None) "".
Proof.
  intros Hi Hj Hdx HA Hq1 Hq2 Q1 Q2.
  pose proof (adjusted_default_range _ Hq1) as M1.
  pose proof (adjusted_default_range _ Hq2) as M2.
  exists (exchangeLayout i j _dx (calculateAdjustedMinOutput quote1 None) _receiver),
         (exchangeLayout i j _dx (calculateAdjustedMinOutput quote2 None) _receiver).
  split; [now rewrite (generateExchangeCallData_valid _ _ _ _ _ _ _ _ Q1)|].
  split; [now rewrite (generateExchangeCallData_valid _ _ _ _ _ _ _ _ Q2)|].
  split; [now apply decode_exchange|].
  split; [now apply decode_exchange|].
  rewrite !exchangeLayout_head.
  split; [now rewrite !take_append by apply length_exchangeHead|].
  split.
  - rewrite <- !append_assoc.
    rewrite !drop_append
      by (rewrite length_append, length_exchangeHead, length_word; reflexivity).
    reflexivity.
  - rewrite !drop_append by apply length_exchangeHead.
    rewrite !take_append by apply length_word.
    split; reflexivity.
Qed.

Lemma generateExchangeCallData_frame_witness :
  exists data1 data2,
    fst (generateExchangeCallData (constantQuoter 99000000) curvePool 1 0
           100000000 usdcMainnet [])
      = Normal data1
    /\ fst (generateExchangeCallData (constantQuoter 42) curvePool 1 0
              100000000 usdcMainnet [get_dyRequest curvePool 1 0 5])
      = Normal data2
    /\ decodeFunctionData exchangeAbi data1
       = Some [VBigInt 1; VBigInt 0; VBigInt 100000000;
               VBigInt (calculateAdjustedMinOutput 99000000 None);
               VAddress (checksumAddress usdcMainnet)]
    /\ decodeFunctionData exchangeAbi data2
       = Some [VBigInt 1; VBigInt 0; VBigInt 100000000;
               VBigInt (calculateAdjustedMinOutput 42 None);
               VAddress (checksumAddress usdcMainnet)]
    /\ take 202 data1 = take 202 data2
    /\ drop 266 data1 = drop 266 data2
    /\ take 64 (drop 202 data1)
       = hexDigits 64 (calculateAdjustedMinOutput 99000000 None) ""
    /\ take 64 (drop 202 data2)
       = hexDigits 64 (calculateAdjustedMinOutput 42 None) "".
Proof.
  apply (generateExchangeCallData_frame (constantQuoter 99000000)
           (constantQuoter 42) curvePool 1 0 100000000 usdcMainnet
           [] [get_dyRequest curvePool 1 0 5] 99000000 42);
    try in_range;
    first [vm_compute; reflexivity | reflexivity].
Defined.

(* ===================================================================== *)
(** ** Further properties of the slippage adjuster *)
(* ===================================================================== *)

(** X1.  The adjusted value grows with the amount and shrinks with the
    tolerance: for unsigned amounts a <= b and tolerances s1 <= s2 <= 10000
    the result for (a, s2) is at most the result for (b, s1). *)
Theorem calculateAdjustedMinOutput_monotone (a b s1 s2 : Z) :
  0 <= a <= b -> s1 <= s2 <= 10000 ->
  calculateAdjustedMinOutput a (Some s2)
  <= calculateAdjustedMinOutput b (Some s1).
Proof.
  intros Hab Hs. unfold calculateAdjustedMinOutput.
  apply Z.quot_le_mono; [lia|].
  apply Z.le_trans with (a * (10000 - s1)).
  - apply Z.mul_le_mono_nonneg_l; lia.
  - apply Z.mul_le_mono_nonneg_r; lia.
Qed.

Lemma calculateAdjustedMinOutput_monotone_witness :
  calculateAdjustedMinOutput 5000 (Some 30)
  <= calculateAdjustedMinOutput 7000 (Some 3).
Proof.
  apply (calculateAdjustedMinOutput_monotone 5000 7000 3 30); lia.
Defined.

Lemma adjusted_deduction (amount slippageBps : Z) :
  0 <= amount -> 0 <= slippageBps <= 10000 ->
  let r := calculateAdjustedMinOutput amount (Some slippageBps) in
  10000 * r <= amount * (10000 - slippageBps) < 10000 * (r + 1)
  /\ amount - r = (amount * slippageBps + 9999) / 10000.
Proof.
  intros Ha Hs r. subst r. rewrite adjusted_nonneg_floor by lia.
  replace (amount * (10000 - slippageBps))
    with (10000 * amount - amount * slippageBps) by ring.
  assert (T : 0 <= amount * slippageBps) by (apply Z.mul_nonneg_nonneg; lia).
  assert (T' : amount * slippageBps <= 10000 * amount) by nia.
  generalize dependent (amount * slippageBps). intros t T T'.
  pose proof (Z.div_mod (10000 * amount - t) 10000 ltac:(lia)) as D1.
  pose proof (Z.mod_pos_bound (10000 * amount - t) 10000 ltac:(lia)) as B1.
  pose proof (Z.div_mod (t + 9999) 10000 ltac:(lia)) as D2.
  pose proof (Z.mod_pos_bound (t + 9999) 10000 ltac:(lia)) as B2.
  split; lia.
Qed.

(** X2.  For an unsigned amount and a tolerance in [0, 10000] the result r is
    the largest integer with 10000 r <= amount (10000 - slippageBps), and
    what is taken off the amount is amount * slippageBps / 10000 rounded
    up. *)
Theorem calculateAdjustedMinOutput_deduction (amount slippageBps : Z) :
  0 <= amount -> 0 <= slippageBps <= 10000 ->
  let r := calculateAdjustedMinOutput amount (Some slippageBps) in
  10000 * r <= amount * (10000 - slippageBps) < 10000 * (r + 1)
  /\ amount - r = (amount * slippageBps + 9999) / 10000.
Proof.
  intros Ha Hs. now apply adjusted_deduction.
Qed.

Lemma calculateAdjustedMinOutput_deduction_witness :
  let r := calculateAdjustedMinOutput 99000000 (Some 3) in
  10000 * r <= 99000000 * (10000 - 3) < 10000 * (r + 1)
  /\ 99000000 - r = (99000000 * 3 + 9999) / 10000.
Proof.
  apply (calculateAdjustedMinOutput_deduction 99000000 3); lia.
Defined.

(** X3.  With the default tolerance every positive amount loses at least one
    unit: the result is unsigned and strictly below the amount, and for
    amounts up to 3333 it is the amount minus one. *)
Theorem calculateAdjustedMinOutput_default_strict (amount : Z) :
  0 < amount ->
  0 <= calculateAdjustedMinOutput amount None < amount
  /\ (amount <= 3333 -> calculateAdjustedMinOutput amount None = amount - 1).
Proof.
  intros Ha.
  change (calculateAdjustedMinOutput amount None)
    with (calculateAdjustedMinOutput amount (Some 3)).
  destruct (adjusted_deduction amount 3 ltac:(lia) ltac:(lia)) as [[L U] D].
  pose proof (Z.div_mod (amount * 3 + 9999) 10000 ltac:(lia)) as D2.
  pose proof (Z.mod_pos_bound (amount * 3 + 9999) 10000 ltac:(lia)) as B2.
  split; [split|]; lia.
Qed.

Lemma calculateAdjustedMinOutput_default_strict_witness :
  0 <= calculateAdjustedMinOutput 1 None < 1
  /\ (1 <= 3333 -> calculateAdjustedMinOutput 1 None = 1 - 1).
Proof.
  apply (calculateAdjustedMinOutput_default_strict 1); lia.
Defined.

(** X4.  The bigint division truncates toward zero, so the adjuster is odd in
    the amount; on a negative amount whose product is not a multiple of
    10000 it returns one more than the floor quotient. *)
Theorem calculateAdjustedMinOutput_negative_amount (amount slippageBps : Z) :
  0 < amount -> 0 <= slippageBps <= 10000 ->
  (amount * (10000 - slippageBps)) mod 10000 <> 0 ->
  calculateAdjustedMinOutput (- amount) (Some slippageBps)
    = - calculateAdjustedMinOutput amount (Some slippageBps)
  /\ calculateAdjustedMinOutput (- amount) (Some slippageBps)
    = (- amount) * (10000 - slippageBps) / 10000 + 1.
Proof.
  intros Ha Hs Hm.
  assert (O : calculateAdjustedMinOutput (- amount) (Some slippageBps)
              = - calculateAdjustedMinOutput amount (Some slippageBps)).
  { unfold calculateAdjustedMinOutput.
    rewrite Z.mul_opp_l. apply Z.quot_opp_l. lia. }
  split; [exact O|].
  rewrite O, adjusted_nonneg_floor by lia.
  rewrite Z.mul_opp_l.
  assert (P : 0 <= amount * (10000 - slippageBps)) by nia.
  set (n := amount * (10000 - slippageBps)) in *. clearbody n.
  pose proof (Z.div_mod n 10000 ltac:(lia)) as D1.
  pose proof (Z.mod_pos_bound n 10000 ltac:(lia)) as B1.
  symmetry. apply Z.add_move_r.
  symmetry. apply Z.div_unique with (r := 10000 - n mod 10000); lia.
Qed.

Lemma calculateAdjustedMinOutput_negative_amount_witness :
  calculateAdjustedMinOutput (- 1) (Some 3)
    = - calculateAdjustedMinOutput 1 (Some 3)
  /\ calculateAdjustedMinOutput (- 1) (Some 3)
    = (- 1) * (10000 - 3) / 10000 + 1.
Proof.
  apply (calculateAdjustedMinOutput_negative_amount 1 3); [lia | lia |].
  vm_compute. discriminate.
Defined.

(* ===================================================================== *)
(** ** Further properties of the approval encoder *)
(* ===================================================================== *)

Lemma Normal_inj {A} (x y : A) : Normal x = Normal y -> x = y.
Proof. intros E. congruence. Qed.

Lemma drop_mapString (f : ascii -> ascii) (n : nat) (s : string) :
  drop n (mapString f s) = mapString f (drop n s).
Proof.
  revert s; induction n as [|n IH]; intros [|c s]; simpl; auto.
Qed.

Lemma addressWord_lower (a b : Address) :
  toLowerCase a = toLowerCase b -> addressWord a = addressWord b.
Proof.
  intros E. unfold addressWord, toLowerCase in *.
  now rewrite <- !drop_mapString, E.
Qed.

Lemma generateApproveCallData_invalid_spender (spender : Address) (amount : Z) :
  isAddress spender = false ->
  generateApproveCallData spender amount = Throw (InvalidAddressError spender).
Proof.
  intros HA. unfold generateApproveCallData, encodeFunctionData,
    encodeAbiParameters.
  cbn [inputs approveAbi List.length Nat.eqb negb prepareParams
       prepareParam type].
  now rewrite (encodeAddress_invalid _ HA).
Qed.

Lemma generateApproveCallData_out_of_range (spender : Address) (amount : Z) :
  isAddress spender = true -> ~ uint256 amount ->
  generateApproveCallData spender amount
  = Throw (IntegerOutOfRangeError amount false 32).
Proof.
  intros HA HR. unfold generateApproveCallData, encodeFunctionData,
    encodeAbiParameters.
  cbn [inputs approveAbi List.length Nat.eqb negb prepareParams
       prepareParam type].
  rewrite (encodeAddress_valid _ HA).
  rewrite encodeNumber_uint256_out_of_range; [reflexivity|].
  unfold uint256 in HR. lia.
Qed.

(** X5.  The approval calldata decodes, for every well-formed spender and every
    amount in the uint256 range, to that spender (in its checksum
    rendering, the same address) and that amount. *)
Theorem generateApproveCallData_decodes (spender : Address) (amount : Z) :
  isAddress spender = true -> uint256 amount ->
  exists data,
    generateApproveCallData spender amount = Normal data
    /\ decodeFunctionData approveAbi data
       = Some [VAddress (checksumAddress spender); VBigInt amount]
    /\ toLowerCase (checksumAddress spender) = toLowerCase spender.
Proof.
  intros HA HU. exists (approveLayout spender amount).
  split; [now apply generateApproveCallData_valid|].
  split; [now apply decode_approve | now apply checksumAddress_same_address].
Qed.

Lemma generateApproveCallData_decodes_witness :
  exists data,
    generateApproveCallData curvePool (2 ^ 256 - 1) = Normal data
    /\ decodeFunctionData approveAbi data
       = Some [VAddress (checksumAddress curvePool); VBigInt (2 ^ 256 - 1)]
    /\ toLowerCase (checksumAddress curvePool) = toLowerCase curvePool.
Proof.
  apply (generateApproveCallData_decodes curvePool (2 ^ 256 - 1));
    [vm_compute; reflexivity | in_range].
Defined.

(** X6.  Two approvals have the same calldata exactly when their amounts are
    equal and their spenders are the same address, that is, equal up to
    the case of the letters. *)
Theorem generateApproveCallData_injective (s1 s2 : Address) (a1 a2 : Z) :
  isAddress s1 = true -> isAddress s2 = true -> uint256 a1 -> uint256 a2 ->
  generateApproveCallData s1 a1 = generateApproveCallData s2 a2
  <-> toLowerCase s1 = toLowerCase s2 /\ a1 = a2.
Proof.
  intros H1 H2 U1 U2.
  rewrite !generateApproveCallData_valid by assumption.
  split.
  - intros E. apply Normal_inj in E.
    pose proof (decode_approve s1 a1 H1 U1) as D.
    rewrite E, (decode_approve s2 a2 H2 U2) in D.
    assert (Ec : checksumAddress s1 = checksumAddress s2) by congruence.
    assert (Ea : a1 = a2) by congruence.
    split; [|exact Ea].
    rewrite <- (checksumAddress_same_address _ H1).
    rewrite <- (checksumAddress_same_address _ H2).
    now rewrite Ec.
  - intros [Es ->]. unfold approveLayout.
    now rewrite (addressWord_lower _ _ Es).
Qed.

Lemma generateApproveCallData_injective_witness :
  generateApproveCallData curvePool 100
    = generateApproveCallData (toLowerCase curvePool) 100
  <-> toLowerCase curvePool = toLowerCase (toLowerCase curvePool)
      /\ 100 = 100.
Proof.
  apply (generateApproveCallData_injective curvePool (toLowerCase curvePool)
           100 100);
    first [vm_compute; reflexivity | in_range].
Defined.

(** X7.  The approval encoder returns calldata exactly for a well-formed
    spender and an amount in the uint256 range; a malformed spender is
    reported before the amount is looked at. *)
Theorem generateApproveCallData_succeeds_iff (spender : Address) (amount : Z) :
  ((exists data, generateApproveCallData spender amount = Normal data)
   <-> isAddress spender = true /\ uint256 amount)
  /\ (isAddress spender = false ->
      generateApproveCallData spender amount
      = Throw (InvalidAddressError spender)).
Proof.
  split; [split|].
  - intros [data E].
    destruct (isAddress spender) eqn:HA.
    + split; [reflexivity|].
      assert (D : uint256 amount \/ ~ uint256 amount) by (unfold uint256; lia).
      destruct D as [D|D]; [assumption|].
      rewrite (generateApproveCallData_out_of_range _ _ HA D) in E.
      discriminate E.
    + rewrite (generateApproveCallData_invalid_spender _ _ HA) in E.
      discriminate E.
  - intros [HA HU]. eexists. now apply generateApproveCallData_valid.
  - apply generateApproveCallData_invalid_spender.
Qed.

(* ===================================================================== *)
(** ** Further properties of the exchange encoder and of [getMinDy] *)
(* ===================================================================== *)

Lemma encodeNumber_int128_out_of_range (v : Z) :
  ~ int128 v ->
  encodeNumber v true 128 = Throw (IntegerOutOfRangeError v true 16).
Proof.
  intros H. unfold encodeNumber, int128 in *.
  change (Z.of_nat 128 - 1) with 127. change (Z.of_nat 128 / 8) with 16.
  destruct (Z.ltb_spec (2 ^ 127 - 1) v); [reflexivity|].
  destruct (Z.ltb_spec v (- (2 ^ 127 - 1) - 1)); [reflexivity | lia].
Qed.

Lemma get_dy_selector :
  toFunctionSelector (formatAbiItem get_dyAbi) = "0x5e0d443f".
Proof. vm_compute. reflexivity. Qed.

Lemma length_exchangeLayout (i j _dx _min_dy : Z) (_receiver : Address) :
  isAddress _receiver = true ->
  String.length (exchangeLayout i j _dx _min_dy _receiver) = 330%nat.
Proof.
  intros HA. rewrite exchangeLayout_head.
  autorewrite with str_length.
  now rewrite length_exchangeHead, (length_addressWord _ HA).
Qed.

(** The encoding of the five exchange arguments, parameter by parameter
    in the order of the signature. *)
Lemma encode_exchange_steps (i j _dx _min_dy : Z) (_receiver : Address) :
  encodeFunctionData exchangeAbi
    [VBigInt i; VBigInt j; VBigInt _dx; VBigInt _min_dy; VAddress _receiver]
  = bindC (encodeNumber i true 128) (fun w1 =>
    bindC (encodeNumber j true 128) (fun w2 =>
    bindC (encodeNumber _dx false 256) (fun w3 =>
    bindC (encodeNumber _min_dy false 256) (fun w4 =>
    bindC (encodeAddress _receiver) (fun w5 =>
    Normal (concatHex ["0xddc1f59d"; concatHex [w1; w2; w3; w4; w5]])))))).
Proof.
  unfold encodeFunctionData. rewrite exchange_selector.
  unfold encodeAbiParameters.
  cbn [inputs exchangeAbi List.length Nat.eqb negb prepareParams prepareParam type].
  destruct (encodeNumber i true 128); [|reflexivity].
  destruct (encodeNumber j true 128); [|reflexivity].
  destruct (encodeNumber _dx false 256); [|reflexivity].
  destruct (encodeNumber _min_dy false 256); [|reflexivity].
  destruct (encodeAddress _receiver); reflexivity.
Qed.

Section ExchangeOutcome.

Variable publicClient : PublicClient.
Variables (pool : Address) (i j _dx : Z) (_receiver : Address) (tr : Trace).
Variable quote : Z.
Hypothesis answered :
  readContract publicClient tr (get_dyRequest pool i j _dx) = Normal quote.

Lemma generateExchangeCallData_answered :
  fst (generateExchangeCallData publicClient pool i j _dx _receiver tr)
  = encodeFunctionData exchangeAbi (exchangeArgs i j _dx quote _receiver).
Proof. now rewrite generateExchangeCallData_run, answered. Qed.

Lemma exchange_outcome_cases :
  let outcome :=
    fst (generateExchangeCallData publicClient pool i j _dx _receiver tr) in
  let minDy := calculateAdjustedMinOutput quote None in
  (~ int128 i -> outcome = Throw (IntegerOutOfRangeError i true 16))
  /\ (int128 i -> ~ int128 j ->
      outcome = Throw (IntegerOutOfRangeError j true 16))
  /\ (int128 i -> int128 j -> ~ uint256 _dx ->
      outcome = Throw (IntegerOutOfRangeError _dx false 32))
  /\ (int128 i -> int128 j -> uint256 _dx -> ~ uint256 minDy ->
      outcome = Throw (IntegerOutOfRangeError minDy false 32))
  /\ (int128 i -> int128 j -> uint256 _dx -> uint256 minDy ->
      isAddress _receiver = false ->
      outcome = Throw (InvalidAddressError _receiver))
  /\ (int128 i -> int128 j -> uint256 _dx -> uint256 minDy ->
      isAddress _receiver = true ->
      outcome = Normal (exchangeLayout i j _dx minDy _receiver)).
Proof.
  intros outcome minDy. subst outcome minDy.
  rewrite generateExchangeCallData_answered. unfold exchangeArgs.
  rewrite encode_exchange_steps.
  assert (R : forall v, ~ uint256 v -> v < 0 \/ 2 ^ 256 <= v)
    by (unfold uint256; intros; lia).
  split; [|split; [|split; [|split; [|split]]]].
  - intros Hi. now rewrite (encodeNumber_int128_out_of_range _ Hi).
  - intros Hi Hj. rewrite (encodeNumber_int128 _ Hi).
    now rewrite (encodeNumber_int128_out_of_range _ Hj).
  - intros Hi Hj Hdx.
    rewrite (encodeNumber_int128 _ Hi), (encodeNumber_int128 _ Hj).
    now rewrite (encodeNumber_uint256_out_of_range _ (R _ Hdx)).
  - intros Hi Hj Hdx Hm.
    rewrite (encodeNumber_int128 _ Hi), (encodeNumber_int128 _ Hj).
    rewrite (encodeNumber_uint256 _ Hdx).
    now rewrite (encodeNumber_uint256_out_of_range _ (R _ Hm)).
  - intros Hi Hj Hdx Hm HA.
    rewrite (encodeNumber_int128 _ Hi), (encodeNumber_int128 _ Hj).
    rewrite (encodeNumber_uint256 _ Hdx), (encodeNumber_uint256 _ Hm).
    now rewrite (encodeAddress_invalid _ HA).
  - intros Hi Hj Hdx Hm HA.
    rewrite <- encode_exchange_steps. now apply encode_exchange.
Qed.

End ExchangeOutcome.

Lemma uint256_dec (v : Z) : uint256 v \/ ~ uint256 v.
Proof. unfold uint256. lia. Qed.

Lemma int128_dec (v : Z) : int128 v \/ ~ int128 v.
Proof. unfold int128. lia. Qed.

(** X9.  When the client has answered the request, the exchange encoder
    returns calldata exactly when i and j fit int128, _dx and the adjusted
    quote fit uint256, and the receiver is well-formed. *)
Theorem generateExchangeCallData_succeeds_iff (publicClient : PublicClient)
  (pool : Address) (i j _dx : Z) (_receiver : Address) (tr : Trace)
  (quote : Z) :
  readContract publicClient tr (get_dyRequest pool i j _dx) = Normal quote ->
  (exists data,
     fst (generateExchangeCallData publicClient pool i j _dx _receiver tr)
     = Normal data)
  <-> int128 i /\ int128 j /\ uint256 _dx
      /\ uint256 (calculateAdjustedMinOutput quote None)
      /\ isAddress _receiver = true.
Proof.
  intros Q.
  destruct (exchange_outcome_cases publicClient pool i j _dx _receiver tr
              quote Q) as (C1 & C2 & C3 & C4 & C5 & C6).
  split.
  - intros [data E].
    destruct (int128_dec i) as [Hi|Hi];
      [|rewrite (C1 Hi) in E; discriminate E].
    destruct (int128_dec j) as [Hj|Hj];
      [|rewrite (C2 Hi Hj) in E; discriminate E].
    destruct (uint256_dec _dx) as [Hd|Hd];
      [|rewrite (C3 Hi Hj Hd) in E; discriminate E].
    destruct (uint256_dec (calculateAdjustedMinOutput quote None)) as [Hm|Hm];
      [|rewrite (C4 Hi Hj Hd Hm) in E; discriminate E].
    destruct (isAddress _receiver) eqn:HA;
      [|rewrite (C5 Hi Hj Hd Hm eq_refl) in E; discriminate E].
    exact (conj Hi (conj Hj (conj Hd (conj Hm eq_refl)))).
  - intros (Hi & Hj & Hd & Hm & HA). eexists. exact (C6 Hi Hj Hd Hm HA).
Qed.

Lemma generateExchangeCallData_succeeds_iff_witness :
  (exists data,
     fst (generateExchangeCallData (constantQuoter (- 1)) curvePool (- 1) 0
            100000000 usdcMainnet [])
     = Normal data)
  <-> int128 (- 1) /\ int128 0 /\ uint256 100000000
      /\ uint256 (calculateAdjustedMinOutput (- 1) None)
      /\ isAddress usdcMainnet = true.
Proof.
  apply (generateExchangeCallData_succeeds_iff (constantQuoter (- 1))
           curvePool (- 1) 0 100000000 usdcMainnet [] (- 1)).
  reflexivity.
Defined.

(** X10.  The exchange calldata is 164 bytes long and starts with the selector
    of the exchange signature; its first three decoded arguments are the
    arguments of the get_dy request that was made for it, so the swap
    that is encoded is the swap that was quoted. *)
Theorem generateExchangeCallData_quoted_swap (publicClient : PublicClient)
  (pool : Address) (i j _dx : Z) (_receiver : Address) (tr : Trace)
  (quote : Z) :
  readContract publicClient tr (get_dyRequest pool i j _dx) = Normal quote ->
  int128 i -> int128 j -> uint256 _dx -> uint256 quote ->
  isAddress _receiver = true ->
  exists data request,
    generateExchangeCallData publicClient pool i j _dx _receiver tr
      = (Normal data, tr ++ [request])
    /\ size data = 164%nat
    /\ sliceHex data 0 4
       = toFunctionSelector "exchange(int128,int128,uint256,uint256,address)"
    /\ decodeFunctionData exchangeAbi data
       = Some (rc_args request
                 ++ [VBigInt (calculateAdjustedMinOutput quote None);
                     VAddress (checksumAddress _receiver)]).
Proof.
  intros Q Hi Hj Hdx Hq HA.
  exists (exchangeLayout i j _dx (calculateAdjustedMinOutput quote None)
            _receiver), (get_dyRequest pool i j _dx).
  split; [now apply generateExchangeCallData_valid|].
  split; [unfold size; now rewrite length_exchangeLayout|].
  split; [rewrite <- exchange_signature, exchange_selector; reflexivity|].
  cbn [get_dyRequest rc_args app].
  apply decode_exchange; auto using adjusted_default_range.
Qed.

Lemma generateExchangeCallData_quoted_swap_witness :
  exists data request,
    generateExchangeCallData (constantQuoter 99000000) curvePool 1 0
        100000000 usdcMainnet []
      = (Normal data, [] ++ [request])
    /\ size data = 164%nat
    /\ sliceHex data 0 4
       = toFunctionSelector "exchange(int128,int128,uint256,uint256,address)"
    /\ decodeFunctionData exchangeAbi data
       = Some (rc_args request
                 ++ [VBigInt (calculateAdjustedMinOutput 99000000 None);
                     VAddress (checksumAddress usdcMainnet)]).
Proof.
  apply (generateExchangeCallData_quoted_swap (constantQuoter 99000000)
           curvePool 1 0 100000000 usdcMainnet [] 99000000);
    try in_range; first [vm_compute; reflexivity | reflexivity].
Defined.

(** X11.  Two runs of the exchange encoder on in-range arguments, each with its
    request answered, return the same calldata exactly when they agree on
    i, j, _dx and the adjusted quote and their receivers are the same
    address (equal up to the case of the letters). *)
Theorem generateExchangeCallData_injective (client1 client2 : PublicClient)
  (pool1 pool2 : Address) (i1 j1 dx1 i2 j2 dx2 : Z) (r1 r2 : Address)
  (tr1 tr2 : Trace) (quote1 quote2 : Z) :
  readContract client1 tr1 (get_dyRequest pool1 i1 j1 dx1) = Normal quote1 ->
  readContract client2 tr2 (get_dyRequest pool2 i2 j2 dx2) = Normal quote2 ->
  int128 i1 -> int128 j1 -> uint256 dx1 -> uint256 quote1 ->
  isAddress r1 = true ->
  int128 i2 -> int128 j2 -> uint256 dx2 -> uint256 quote2 ->
  isAddress r2 = true ->
  fst (generateExchangeCallData client1 pool1 i1 j1 dx1 r1 tr1)
  = fst (generateExchangeCallData client2 pool2 i2 j2 dx2 r2 tr2)
  <-> i1 = i2 /\ j1 = j2 /\ dx1 = dx2
      /\ calculateAdjustedMinOutput quote1 None
         = calculateAdjustedMinOutput quote2 None
      /\ toLowerCase r1 = toLowerCase r2.
Proof.
  intros Q1 Q2 Hi1 Hj1 Hd1 Hq1 HA1 Hi2 Hj2 Hd2 Hq2 HA2.
  pose proof (adjusted_default_range _ Hq1) as Hm1.
  pose proof (adjusted_default_range _ Hq2) as Hm2.
  rewrite (generateExchangeCallData_valid _ _ _ _ _ _ _ _ Q1) by assumption.
  rewrite (generateExchangeCallData_valid _ _ _ _ _ _ _ _ Q2) by assumption.
  cbn [fst].
  split.
  - intros E. apply Normal_inj in E.
    pose proof (decode_exchange i1 j1 dx1 _ r1 Hi1 Hj1 Hd1 Hm1 HA1) as D.
    rewrite E, (decode_exchange i2 j2 dx2 _ r2 Hi2 Hj2 Hd2 Hm2 HA2) in D.
    assert (Ec : checksumAddress r1 = checksumAddress r2) by congruence.
    assert (Ei : i1 = i2) by congruence.
    assert (Ej : j1 = j2) by congruence.
    assert (Ed : dx1 = dx2) by congruence.
    assert (Em : calculateAdjustedMinOutput quote1 None
                 = calculateAdjustedMinOutput quote2 None) by congruence.
    repeat (split; [assumption|]).
    rewrite <- (checksumAddress_same_address _ HA1).
    rewrite <- (checksumAddress_same_address _ HA2).
    now rewrite Ec.
  - intros (-> & -> & -> & Em & Er). unfold exchangeLayout.
    now rewrite Em, (addressWord_lower _ _ Er).
Qed.

Lemma generateExchangeCallData_injective_witness :
  fst (generateExchangeCallData (constantQuoter 10000) curvePool 1 0
         100000000 usdcMainnet [])
  = fst (generateExchangeCallData (constantQuoter 10001) curvePool 1 0
           100000000 (toLowerCase usdcMainnet) [])
  <-> 1 = 1 /\ 0 = 0 /\ 100000000 = 100000000
      /\ calculateAdjustedMinOutput 10000 None
         = calculateAdjustedMinOutput 10001 None
      /\ toLowerCase usdcMainnet = toLowerCase (toLowerCase usdcMainnet).
Proof.
  apply (generateExchangeCallData_injective (constantQuoter 10000)
           (constantQuoter 10001) curvePool curvePool 1 0 100000000
           1 0 100000000 usdcMainnet (toLowerCase usdcMainnet) [] []
           10000 10001);
    try in_range; first [vm_compute; reflexivity | reflexivity].
Defined.

(** X12.  The pool address is handed to the client as it is, without any check,
    and never enters the calldata: two runs that differ only in the pool,
    and whose requests get the same answer, settle to the same outcome. *)
Theorem generateExchangeCallData_pool_frame (publicClient : PublicClient)
  (pool1 pool2 : string) (i j _dx : Z) (_receiver : Address)
  (tr1 tr2 : Trace) (answer : Completion Z) :
  readContract publicClient tr1 (get_dyRequest pool1 i j _dx) = answer ->
  readContract publicClient tr2 (get_dyRequest pool2 i j _dx) = answer ->
  fst (generateExchangeCallData publicClient pool1 i j _dx _receiver tr1)
  = fst (generateExchangeCallData publicClient pool2 i j _dx _receiver tr2)
  /\ snd (generateExchangeCallData publicClient pool1 i j _dx _receiver tr1)
     = tr1 ++ [get_dyRequest pool1 i j _dx]
  /\ rc_address (get_dyRequest pool1 i j _dx) = pool1.
Proof.
  intros Q1 Q2. rewrite !generateExchangeCallData_run, Q1, Q2.
  repeat split.
Qed.

Lemma generateExchangeCallData_pool_frame_witness :
  fst (generateExchangeCallData (constantQuoter 42) "not an address" 1 0 7
         usdcMainnet [])
  = fst (generateExchangeCallData (constantQuoter 42) curvePool 1 0 7
           usdcMainnet [get_dyRequest curvePool 1 0 5])
  /\ snd (generateExchangeCallData (constantQuoter 42) "not an address" 1 0 7
            usdcMainnet [])
     = [] ++ [get_dyRequest "not an address" 1 0 7]
  /\ rc_address (get_dyRequest "not an address" 1 0 7) = "not an address".
Proof.
  apply (generateExchangeCallData_pool_frame (constantQuoter 42)
           "not an address" curvePool 1 0 7 usdcMainnet []
           [get_dyRequest curvePool 1 0 5] (Normal 42));
    reflexivity.
Defined.

(** X13.  [getMinDy] returns the client's answer untouched after one request,
    and that request is well-formed for in-range arguments: its function
    name is the one of its ABI, and its arguments encode under its ABI to
    100 bytes of calldata, selector 0x5e0d443f of
    get_dy(int128,int128,uint256), that decode back to the arguments. *)
Theorem getMinDy_request (publicClient : PublicClient)
  (swapContractAddress : Address) (i j dx : Z) (tr : Trace) :
  int128 i -> int128 j -> uint256 dx ->
  exists request calldata,
    getMinDy publicClient swapContractAddress i j dx tr
      = (readContract publicClient tr request, tr ++ [request])
    /\ rc_address request = swapContractAddress
    /\ rc_functionName request = functionName (rc_abi request)
    /\ formatAbiItem (rc_abi request) = "get_dy(int128,int128,uint256)"
    /\ encodeFunctionData (rc_abi request) (rc_args request) = Normal calldata
    /\ size calldata = 100%nat
    /\ sliceHex calldata 0 4 = "0x5e0d443f"
    /\ decodeFunctionData (rc_abi request) calldata
       = Some [VBigInt i; VBigInt j; VBigInt dx].
Proof.
  intros Hi Hj Hdx.
  exists (get_dyRequest swapContractAddress i j dx),
         ("0x" ++ "5e0d443f" ++ word (i mod 2 ^ 256) ++ word (j mod 2 ^ 256)
               ++ word dx ++ "")%string.
  split; [reflexivity|].
  split; [reflexivity|].
  split; [reflexivity|].
  split; [reflexivity|].
  cbn [get_dyRequest rc_abi rc_args].
  split; [|split; [|split]].
  - unfold encodeFunctionData. rewrite get_dy_selector.
    unfold encodeAbiParameters.
    cbn [inputs get_dyAbi List.length Nat.eqb negb prepareParams
         prepareParam type].
    rewrite (encodeNumber_int128 _ Hi), (encodeNumber_int128 _ Hj).
    rewrite (encodeNumber_uint256 _ Hdx).
    cbn [bindC]. unfold concatHex. cbn [fold_left].
    rewrite !strip0x_0x. change (strip0x "0x5e0d443f") with "5e0d443f".
    cbn [append]. now rewrite ?append_assoc, ?append_nil_r.
  - unfold size. cbn [append String.length].
    autorewrite with str_length. reflexivity.
  - reflexivity.
  - rewrite (decodeFunctionData_selector _ _ _ get_dy_selector) by reflexivity.
    cbn [inputs get_dyAbi].
    rewrite !decodeAbiParameters_cons by apply length_word.
    cbn [type decodeParam decodeAbiParameters].
    unfold int128 in Hi, Hj.
    rewrite !decodeNumber_signed by lia.
    now rewrite (decodeNumber_unsigned _ Hdx).
Qed.

Lemma getMinDy_request_witness :
  exists request calldata,
    getMinDy (constantQuoter 99000000) curvePool 1 0 100000000 []
      = (readContract (constantQuoter 99000000) [] request, [] ++ [request])
    /\ rc_address request = curvePool
    /\ rc_functionName request = functionName (rc_abi request)
    /\ formatAbiItem (rc_abi request) = "get_dy(int128,int128,uint256)"
    /\ encodeFunctionData (rc_abi request) (rc_args request) = Normal calldata
    /\ size calldata = 100%nat
    /\ sliceHex calldata 0 4 = "0x5e0d443f"
    /\ decodeFunctionData (rc_abi request) calldata
       = Some [VBigInt 1; VBigInt 0; VBigInt 100000000].
Proof.
  apply (getMinDy_request (constantQuoter 99000000) curvePool 1 0 100000000 []);
    in_range.
Defined.

(* ===================================================================== *)
(** ** The transaction URL helper *)
(* ===================================================================== *)

Lemma take_drop (n : nat) (s : string) : (take n s ++ drop n s)%string = s.
Proof.
  revert s; induction n as [|n IH]; intros [|c s]; simpl; try reflexivity.
  now rewrite IH.
Qed.

Lemma append_inv_head (a b c : string) :
  (a ++ b)%string = (a ++ c)%string -> b = c.
Proof.
  induction a as [|x a IH]; simpl; intros E; [exact E|].
  apply IH. now injection E.
Qed.

Lemma append_char_inj (a b : string) (c : ascii) :
  (a ++ String c "")%string = (b ++ String c "")%string -> a = b.
Proof.
  revert b; induction a as [|x a IH]; intros [|y b] E; simpl in E.
  - reflexivity.
  - injection E as _ E. destruct b; discriminate E.
  - injection E as _ E. destruct a; discriminate E.
  - injection E as -> E. f_equal. now apply IH.
Qed.

Lemma endsWith_inv (s suffix : string) :
  endsWith s suffix = true -> exists p, s = (p ++ suffix)%string.
Proof.
  unfold endsWith. intros H.
  destruct (String.length suffix <=? String.length s)%nat; [|discriminate].
  apply String.eqb_eq in H.
  exists (take (String.length s - String.length suffix) s).
  pose proof (take_drop (String.length s - String.length suffix) s) as T.
  rewrite H in T. now symmetry.
Qed.

Lemma endsWith_append (p suffix : string) :
  endsWith (p ++ suffix) suffix = true.
Proof.
  unfold endsWith. rewrite length_append.
  destruct (Nat.leb_spec (String.length suffix)
              (String.length p + String.length suffix)); [|lia].
  replace (String.length p + String.length suffix - String.length suffix)%nat
    with (String.length p) by lia.
  rewrite drop_append by reflexivity. apply String.eqb_refl.
Qed.

Lemma createTransactionUrl_explorers (chain : Chain) (hash : string)
  (explorers : BlockExplorers) :
  blockExplorers chain = Some explorers ->
  createTransactionUrl chain hash
  = Returned (explorerBase explorers ++ "tx/" ++ hash)%string.
Proof.
  intros E. unfold createTransactionUrl, explorerBase. rewrite E.
  now destruct (endsWith (url (default explorers)) "/").
Qed.

Lemma endsWith_explorerBase (explorers : BlockExplorers) :
  endsWith (explorerBase explorers) "/" = true.
Proof.
  unfold explorerBase.
  destruct (endsWith (url (default explorers)) "/") eqn:E;
    [exact E | apply endsWith_append].
Qed.

(** X14.  The helper throws exactly for a chain without block explorers;
    otherwise it returns the explorer URL, with a slash added only when
    the URL does not end with one, followed by tx/ and the hash: the hash
    is always preceded by exactly the text /tx/. *)
Theorem createTransactionUrl_shape (chain : Chain) (transactionHash : string) :
  match blockExplorers chain with
  | None =>
      createTransactionUrl chain transactionHash
      = Thrown "Chain has no block explorers"
  | Some explorers =>
      let u := url (default explorers) in
      exists base stem,
        createTransactionUrl chain transactionHash
        = Returned (base ++ "tx/" ++ transactionHash)%string
        /\ base = (stem ++ "/")%string
        /\ (endsWith u "/" = true -> base = u)
        /\ (endsWith u "/" = false -> stem = u)
  end.
Proof.
  destruct (blockExplorers chain) as [explorers|] eqn:E.
  - intros u.
    destruct (endsWith_inv _ _ (endsWith_explorerBase explorers)) as [stem S].
    exists (explorerBase explorers), stem.
    split; [now apply createTransactionUrl_explorers|].
    split; [exact S|].
    unfold explorerBase in *. fold u in S |- *.
    destruct (endsWith u "/"); split; try discriminate; try reflexivity.
    intros _. symmetry. now apply (append_char_inj _ _ "/"%char).
  - unfold createTransactionUrl. now rewrite E.
Qed.

(** X15.  A trailing slash on the explorer URL makes no difference: a chain
    whose URL u does not end with a slash and a chain whose URL is u
    followed by a slash give the same transaction URL. *)
Theorem createTransactionUrl_trailing_slash (chain1 chain2 : Chain)
  (e1 e2 : BlockExplorers) (transactionHash : string) :
  blockExplorers chain1 = Some e1 ->
  blockExplorers chain2 = Some e2 ->
  endsWith (url (default e1)) "/" = false ->
  url (default e2) = (url (default e1) ++ "/")%string ->
  createTransactionUrl chain1 transactionHash
  = createTransactionUrl chain2 transactionHash.
Proof.
  intros E1 E2 N U.
  rewrite (createTransactionUrl_explorers _ _ _ E1).
  rewrite (createTransactionUrl_explorers _ _ _ E2).
  unfold explorerBase. rewrite N, U, endsWith_append. reflexivity.
Qed.

Lemma createTransactionUrl_trailing_slash_witness :
  createTransactionUrl mainnetChain "0xabc"
  = createTransactionUrl
      {| chainId := 1;
         blockExplorers :=
           Some {| default := {| url := "https://etherscan.io/" |} |} |}
      "0xabc".
Proof.
  apply (createTransactionUrl_trailing_slash mainnetChain _
           {| default := {| url := "https://etherscan.io" |} |}
           {| default := {| url := "https://etherscan.io/" |} |} "0xabc");
    reflexivity.
Defined.

(** X16.  On one chain different transaction hashes get different URLs. *)
Theorem createTransactionUrl_injective (chain : Chain) (hash1 hash2 : string)
  (result : string) :
  createTransactionUrl chain hash1 = Returned result ->
  createTransactionUrl chain hash2 = Returned result ->
  hash1 = hash2.
Proof.
  unfold createTransactionUrl.
  destruct (blockExplorers chain) as [explorers|]; [|discriminate].
  cbv zeta.
  set (base := if negb (endsWith (url (default explorers)) "/")
               then (url (default explorers) ++ "/")%string
               else url (default explorers)).
  intros R1 R2. rewrite <- R2 in R1.
  assert (E : (base ++ "tx/" ++ hash1)%string = (base ++ "tx/" ++ hash2)%string)
    by congruence.
  apply append_inv_head in E. now apply (append_inv_head "tx/") in E.
Qed.

Lemma createTransactionUrl_injective_witness :
  createTransactionUrl arbitrumChain "0xabc"
    = Returned "https://arbiscan.io/tx/0xabc"
  /\ "0xabc" = "0xabc".
Proof.
  split; [reflexivity|].
  apply (createTransactionUrl_injective arbitrumChain "0xabc" "0xabc"
           "https://arbiscan.io/tx/0xabc"); reflexivity.
Defined.

(* ===================================================================== *)
(** ** The cross-chain message of [executeSwap] *)
(* ===================================================================== *)

Lemma curvePool_isAddress : isAddress curvePool = true.
Proof. vm_compute. reflexivity. Qed.

Lemma curvePool_checksum : checksumAddress curvePool = curvePool.
Proof. vm_compute. reflexivity. Qed.

Lemma inputAmount_uint256 : uint256 Driver.inputAmount.
Proof. unfold Driver.inputAmount. in_range. Qed.

Lemma approveAndSwapMessage_run (publicClient : PublicClient)
  (userAddress : Address) (tr : Trace) :
  Driver.approveAndSwapMessage publicClient userAddress tr
  = match generateExchangeCallData publicClient curvePool 1 0
            Driver.inputAmount userAddress tr with
    | (Normal exchangeCallData, tr') =>
        (Normal
           {| Driver.actions :=
                [ {| Driver.target := usdcMainnet;
                     Driver.callData := approveLayout curvePool Driver.inputAmount;
                     Driver.value := 0;
                     Driver.update := Driver.SyncUpdate (fun amount =>
                       generateApproveCallData curvePool amount) |};
                  {| Driver.target := curvePool;
                     Driver.callData := exchangeCallData;
                     Driver.value := 0;
                     Driver.update := Driver.AsyncUpdate (fun amount =>
                       generateExchangeCallData publicClient curvePool 1 0
                         amount userAddress) |} ];
              Driver.fallbackRecipient := userAddress |}, tr')
    | (Throw e, tr') => (Throw e, tr')
    end.
Proof.
  unfold Driver.approveAndSwapMessage, await, resolve.
  change (Driver.contractAddress Driver.curveParams) with curvePool.
  change (Driver.i Driver.curveParams) with 1.
  change (Driver.j Driver.curveParams) with 0.
  change (Driver.outputToken Driver.route) with usdcMainnet.
  rewrite (generateApproveCallData_valid _ _ curvePool_isAddress
             inputAmount_uint256).
  destruct (generateExchangeCallData publicClient curvePool 1 0
              Driver.inputAmount userAddress tr) as [[data|e] tr'];
    reflexivity.
Qed.

(** X17.  For a well-formed wallet address and a client that answers the first
    request with a quote, the message is built after exactly one request
    and holds two actions: an approval sent to the output token, which
    approves the Curve pool for the input amount, and an exchange sent to
    that same pool, which spends that same amount, with the adjusted quote
    as minimum and the wallet as receiver; the wallet is also the fallback
    recipient. *)
Theorem approveAndSwapMessage_built (publicClient : PublicClient)
  (userAddress : Address) (tr : Trace) (quote : Z) :
  isAddress userAddress = true -> uint256 quote ->
  readContract publicClient tr
    (get_dyRequest curvePool 1 0 Driver.inputAmount) = Normal quote ->
  exists message approval exchange,
    Driver.approveAndSwapMessage publicClient userAddress tr
      = (Normal message,
         tr ++ [get_dyRequest curvePool 1 0 Driver.inputAmount])
    /\ Driver.actions message = [approval; exchange]
    /\ Driver.fallbackRecipient message = userAddress
    /\ Driver.target approval = Driver.outputToken Driver.route
    /\ Driver.value approval = 0 /\ Driver.value exchange = 0
    /\ decodeFunctionData approveAbi (Driver.callData approval)
       = Some [VAddress (Driver.target exchange);
               VBigInt Driver.inputAmount]
    /\ Driver.target exchange = Driver.contractAddress Driver.curveParams
    /\ decodeFunctionData exchangeAbi (Driver.callData exchange)
       = Some [VBigInt 1; VBigInt 0; VBigInt Driver.inputAmount;
               VBigInt (calculateAdjustedMinOutput quote None);
               VAddress (checksumAddress userAddress)].
Proof.
  intros HA Hq Q.
  assert (I1 : int128 1) by in_range.
  assert (I0 : int128 0) by in_range.
  rewrite approveAndSwapMessage_run.
  rewrite (generateExchangeCallData_valid _ _ _ _ _ _ _ _ Q I1 I0
             inputAmount_uint256 Hq HA).
  eexists. eexists. eexists.
  split; [reflexivity|].
  split; [reflexivity|].
  split; [reflexivity|].
  split; [reflexivity|].
  split; [reflexivity|].
  split; [reflexivity|].
  cbn [Driver.callData Driver.target].
  split; [|split; [reflexivity|]].
  - rewrite (decode_approve _ _ curvePool_isAddress inputAmount_uint256).
    now rewrite curvePool_checksum.
  - apply decode_exchange; auto using adjusted_default_range, inputAmount_uint256.
Qed.

Lemma approveAndSwapMessage_built_witness :
  exists message approval exchange,
    Driver.approveAndSwapMessage (constantQuoter 99000000) usdcMainnet []
      = (Normal message,
         [] ++ [get_dyRequest curvePool 1 0 Driver.inputAmount])
    /\ Driver.actions message = [approval; exchange]
    /\ Driver.fallbackRecipient message = usdcMainnet
    /\ Driver.target approval = Driver.outputToken Driver.route
    /\ Driver.value approval = 0 /\ Driver.value exchange = 0
    /\ decodeFunctionData approveAbi (Driver.callData approval)
       = Some [VAddress (Driver.target exchange);
               VBigInt Driver.inputAmount]
    /\ Driver.target exchange = Driver.contractAddress Driver.curveParams
    /\ decodeFunctionData exchangeAbi (Driver.callData exchange)
       = Some [VBigInt 1; VBigInt 0; VBigInt Driver.inputAmount;
               VBigInt (calculateAdjustedMinOutput 99000000 None);
               VAddress (checksumAddress usdcMainnet)].
Proof.
  apply (approveAndSwapMessage_built (constantQuoter 99000000) usdcMainnet
           [] 99000000);
    first [in_range | vm_compute; reflexivity | reflexivity].
Defined.

(** X18.  The [update] closures of the built message keep the two actions in
    step: for an updated amount in the uint256 range, the approval update
    returns, without any request, calldata that approves the Curve pool
    for that amount, and the exchange update makes one new request for
    that amount and returns calldata that spends exactly that amount,
    with the minimum taken from the new quote. *)
Theorem approveAndSwapMessage_updates (publicClient : PublicClient)
  (userAddress : Address) (tr : Trace) (quote : Z) :
  isAddress userAddress = true -> uint256 quote ->
  readContract publicClient tr
    (get_dyRequest curvePool 1 0 Driver.inputAmount) = Normal quote ->
  exists message approval exchange updateApproval updateExchange,
    fst (Driver.approveAndSwapMessage publicClient userAddress tr)
      = Normal message
    /\ Driver.actions message = [approval; exchange]
    /\ Driver.update approval = Driver.SyncUpdate updateApproval
    /\ Driver.update exchange = Driver.AsyncUpdate updateExchange
    /\ updateApproval Driver.inputAmount = Normal (Driver.callData approval)
    /\ forall updatedOutputAmount, uint256 updatedOutputAmount ->
       (exists data,
          updateApproval updatedOutputAmount = Normal data
          /\ decodeFunctionData approveAbi data
             = Some [VAddress (Driver.target exchange);
                     VBigInt updatedOutputAmount])
       /\ (forall tr' quote',
             uint256 quote' ->
             readContract publicClient tr'
               (get_dyRequest curvePool 1 0 updatedOutputAmount)
               = Normal quote' ->
             exists data,
               updateExchange updatedOutputAmount tr'
                 = (Normal data,
                    tr' ++ [get_dyRequest curvePool 1 0 updatedOutputAmount])
               /\ decodeFunctionData exchangeAbi data
                  = Some [VBigInt 1; VBigInt 0; VBigInt updatedOutputAmount;
                          VBigInt (calculateAdjustedMinOutput quote' None);
                          VAddress (checksumAddress userAddress)]).
Proof.
  intros HA Hq Q.
  assert (I1 : int128 1) by in_range.
  assert (I0 : int128 0) by in_range.
  rewrite approveAndSwapMessage_run.
  rewrite (generateExchangeCallData_valid _ _ _ _ _ _ _ _ Q I1 I0
             inputAmount_uint256 Hq HA).
  cbn [fst].
  eexists. eexists. eexists. eexists. eexists.
  split; [reflexivity|].
  split; [reflexivity|].
  split; [reflexivity|].
  split; [reflexivity|].
  cbn [Driver.callData Driver.target].
  split.
  - apply generateApproveCallData_valid;
      [exact curvePool_isAddress | exact inputAmount_uint256].
  - intros amount Ha. split.
    + exists (approveLayout curvePool amount).
      split; [now apply generateApproveCallData_valid; [exact curvePool_isAddress|]|].
      rewrite (decode_approve _ _ curvePool_isAddress Ha).
      now rewrite curvePool_checksum.
    + intros tr' quote' Hq' Q'.
      eexists. split.
      * exact (generateExchangeCallData_valid _ _ _ _ _ _ _ _ Q' I1 I0 Ha Hq' HA).
      * apply decode_exchange; auto using adjusted_default_range.
Qed.

Lemma approveAndSwapMessage_updates_witness :
  exists message approval exchange updateApproval updateExchange,
    fst (Driver.approveAndSwapMessage followingQuoter usdcMainnet [])
      = Normal message
    /\ Driver.actions message = [approval; exchange]
    /\ Driver.update approval = Driver.SyncUpdate updateApproval
    /\ Driver.update exchange = Driver.AsyncUpdate updateExchange
    /\ updateApproval Driver.inputAmount = Normal (Driver.callData approval)
    /\ forall updatedOutputAmount, uint256 updatedOutputAmount ->
       (exists data,
          updateApproval updatedOutputAmount = Normal data
          /\ decodeFunctionData approveAbi data
             = Some [VAddress (Driver.target exchange);
                     VBigInt updatedOutputAmount])
       /\ (forall tr' quote',
             uint256 quote' ->
             readContract followingQuoter tr'
               (get_dyRequest curvePool 1 0 updatedOutputAmount)
               = Normal quote' ->
             exists data,
               updateExchange updatedOutputAmount tr'
                 = (Normal data,
                    tr' ++ [get_dyRequest curvePool 1 0 updatedOutputAmount])
               /\ decodeFunctionData exchangeAbi data
                  = Some [VBigInt 1; VBigInt 0; VBigInt updatedOutputAmount;
                          VBigInt (calculateAdjustedMinOutput quote' None);
                          VAddress (checksumAddress usdcMainnet)]).
Proof.
  apply (approveAndSwapMessage_updates followingQuoter usdcMainnet []
           99000000);
    first [in_range | vm_compute; reflexivity | reflexivity].
Defined.

(** X19.  No message is built from a missing quote or for a malformed wallet
    address: when the client rejects the first request the construction
    settles with that error, and when the client answers but the wallet
    address is malformed it settles with InvalidAddressError; either way
    after exactly one request. *)
Theorem approveAndSwapMessage_failure (publicClient : PublicClient)
  (userAddress : Address) (tr : Trace) :
  (forall e,
     readContract publicClient tr
       (get_dyRequest curvePool 1 0 Driver.inputAmount) = Throw e ->
     Driver.approveAndSwapMessage publicClient userAddress tr
     = (Throw e, tr ++ [get_dyRequest curvePool 1 0 Driver.inputAmount]))
  /\ (forall quote,
        readContract publicClient tr
          (get_dyRequest curvePool 1 0 Driver.inputAmount) = Normal quote ->
        uint256 quote -> isAddress userAddress = false ->
        Driver.approveAndSwapMessage publicClient userAddress tr
        = (Throw (InvalidAddressError userAddress),
           tr ++ [get_dyRequest curvePool 1 0 Driver.inputAmount])).
Proof.
  split.
  - intros e Q. rewrite approveAndSwapMessage_run.
    now rewrite generateExchangeCallData_run, Q.
  - intros quote Q Hq HA. rewrite approveAndSwapMessage_run.
    assert (I1 : int128 1) by in_range.
    assert (I0 : int128 0) by in_range.
    destruct (exchange_outcome_cases publicClient curvePool 1 0
                Driver.inputAmount userAddress tr quote Q)
      as (_ & _ & _ & _ & C5 & _).
    specialize (C5 I1 I0 inputAmount_uint256
                  (adjusted_default_range _ Hq) HA).
    destruct (generateExchangeCallData publicClient curvePool 1 0
                Driver.inputAmount userAddress tr) as [c tr'] eqn:G.
    cbn [fst] in C5. subst c.
    pose proof (f_equal snd G) as T.
    rewrite generateExchangeCallData_run in T. cbn [snd] in T.
    now rewrite <- T.
Qed.

Lemma approveAndSwapMessage_failure_witness :
  Driver.approveAndSwapMessage (failingQuoter (ClientError "timeout"))
    usdcMainnet []
  = (Throw (ClientError "timeout"),
     [] ++ [get_dyRequest curvePool 1 0 Driver.inputAmount])
  /\ Driver.approveAndSwapMessage (constantQuoter 99000000) "0x1234" []
     = (Throw (InvalidAddressError "0x1234"),
        [] ++ [get_dyRequest curvePool 1 0 Driver.inputAmount]).
Proof.
  split.
  - apply (proj1 (approveAndSwapMessage_failure
                    (failingQuoter (ClientError "timeout")) usdcMainnet [])).
    reflexivity.
  - apply (proj2 (approveAndSwapMessage_failure (constantQuoter 99000000)
                    "0x1234" []) 99000000);
      [reflexivity | in_range | reflexivity].
Defined.

(* ===================================================================== *)
(** ** The client of [getMinDy]: retries and checks before the transport *)
(* ===================================================================== *)

Section Retry.

Context {A : Type}.
Variable fn : nat -> TransportError + A.





End Retry.

Lemma encode_get_dy_steps (i j dx : Z) :
  encodeFunctionData get_dyAbi [VBigInt i; VBigInt j; VBigInt dx]
  = bindC (encodeNumber i true 128) (fun w1 =>
    bindC (encodeNumber j true 128) (fun w2 =>
    bindC (encodeNumber dx false 256) (fun w3 =>
    Normal (concatHex ["0x5e0d443f"; concatHex [w1; w2; w3]])))).
Proof.
  unfold encodeFunctionData. rewrite get_dy_selector.
  unfold encodeAbiParameters.
  cbn [inputs get_dyAbi List.length Nat.eqb negb prepareParams prepareParam type].
  destruct (encodeNumber i true 128); [|reflexivity].
  destruct (encodeNumber j true 128); [|reflexivity].
  destruct (encodeNumber dx false 256); reflexivity.
Qed.

Lemma encode_get_dy (i j dx : Z) :
  int128 i -> int128 j -> uint256 dx ->
  encodeFunctionData get_dyAbi [VBigInt i; VBigInt j; VBigInt dx]
  = Normal (get_dyLayout i j dx).
Proof.
  intros Hi Hj Hdx. rewrite encode_get_dy_steps.
  rewrite (encodeNumber_int128 _ Hi), (encodeNumber_int128 _ Hj).
  rewrite (encodeNumber_uint256 _ Hdx).
  cbn [bindC]. unfold concatHex. cbn [fold_left].
  rewrite !strip0x_0x. change (strip0x "0x5e0d443f") with "5e0d443f".
  unfold get_dyLayout. cbn [append]. now rewrite ?append_assoc.
Qed.

(** The arguments of the get_dy call that do not encode, first one
    first. *)
Lemma encode_get_dy_rejected (i j dx : Z) :
  (~ int128 i ->
   encodeFunctionData get_dyAbi [VBigInt i; VBigInt j; VBigInt dx]
   = Throw (IntegerOutOfRangeError i true 16))
  /\ (int128 i -> ~ int128 j ->
      encodeFunctionData get_dyAbi [VBigInt i; VBigInt j; VBigInt dx]
      = Throw (IntegerOutOfRangeError j true 16))
  /\ (int128 i -> int128 j -> ~ uint256 dx ->
      encodeFunctionData get_dyAbi [VBigInt i; VBigInt j; VBigInt dx]
      = Throw (IntegerOutOfRangeError dx false 32)).
Proof.
  rewrite encode_get_dy_steps.
  split; [|split].
  - intros Hi. now rewrite (encodeNumber_int128_out_of_range _ Hi).
  - intros Hi Hj. rewrite (encodeNumber_int128 _ Hi).
    now rewrite (encodeNumber_int128_out_of_range _ Hj).
  - intros Hi Hj Hdx.
    rewrite (encodeNumber_int128 _ Hi), (encodeNumber_int128 _ Hj).
    rewrite encodeNumber_uint256_out_of_range; [reflexivity|].
    unfold uint256 in Hdx. lia.
Qed.

Lemma viemReadContract_get_dy (transport : Transport) (attempt : nat)
  (pool : Address) (i j dx : Z) :
  viemReadContract transport attempt (get_dyRequest pool i j dx)
  = match encodeFunctionData get_dyAbi [VBigInt i; VBigInt j; VBigInt dx] with
    | Throw e => (Throw e, attempt)
    | Normal calldata =>
        if negb (String.eqb pool "") && negb (isAddress pool)
        then (Throw (ClientError "InvalidAddressError"), attempt)
        else
          match withRetry (retryCount transport)
                  (fun k => endpoint transport k pool calldata) attempt with
          | (inl err, attempt') => (Throw (ClientError (causeName err)), attempt')
          | (inr response, attempt') =>
              (decodeFunctionResult get_dyAbi response, attempt')
          end
    end.
Proof. reflexivity. Qed.

Lemma httpAttempts_app (transport : Transport) (attempt : nat) (tr : Trace)
  (parameters : ReadContractParameters) :
  httpAttempts transport attempt (tr ++ [parameters])
  = snd (viemReadContract transport (httpAttempts transport attempt tr)
           parameters).
Proof.
  revert attempt; induction tr as [|p tr IH]; intros attempt; simpl;
    [reflexivity | apply IH].
Qed.

(** A run with the client of the source: the outcome, the calls and the
    number of HTTP requests it leaves behind. *)
Lemma generateExchangeCallData_viem (rpc : Endpoint) (pool : Address)
  (i j _dx : Z) (_receiver : Address) (tr : Trace) :
  let request := get_dyRequest pool i j _dx in
  let answer :=
    viemReadContract (http rpc) (httpAttempts (http rpc) 0 tr) request in
  let run :=
    generateExchangeCallData (createPublicClient (http rpc)) pool i j _dx
      _receiver tr in
  fst run
  = bindC (fst answer) (fun quote =>
      encodeFunctionData exchangeAbi (exchangeArgs i j _dx quote _receiver))
  /\ snd run = tr ++ [request]
  /\ httpAttempts (http rpc) 0 (snd run) = snd answer.
Proof.
  intros request answer run. subst run.
  rewrite generateExchangeCallData_run. cbn [fst snd].
  split; [reflexivity|]. split; [reflexivity|].
  apply httpAttempts_app.
Qed.

Lemma hexVal_range (c : ascii) (d : Z) : hexVal c = Some d -> 0 <= d < 16.
Proof.
  intros H.
  destruct c as [[] [] [] [] [] [] [] []]; vm_compute in H;
    first [discriminate H | injection H as <-; lia].
Qed.

Lemma hexToZFrom_bound (s : string) (acc v : Z) :
  0 <= acc -> hexToZFrom acc s = Some v ->
  acc * 16 ^ Z.of_nat (String.length s) <= v
  < (acc + 1) * 16 ^ Z.of_nat (String.length s).
Proof.
  revert acc; induction s as [|c s IH]; intros acc Ha H.
  - simpl in H. injection H as <-. simpl. lia.
  - cbn [hexToZFrom] in H. destruct (hexVal c) as [d|] eqn:D; [|discriminate].
    apply hexVal_range in D. apply IH in H; [|lia].
    cbn [String.length]. rewrite Nat2Z.inj_succ, Z.pow_succ_r by lia.
    assert (P : 0 < 16 ^ Z.of_nat (String.length s))
      by (apply Z.pow_pos_nonneg; lia).
    nia.
Qed.

Lemma length_take (n : nat) (s : string) : (String.length (take n s) <= n)%nat.
Proof.
  revert s; induction n as [|n IH]; intros [|c s]; simpl; try lia.
  specialize (IH s). lia.
Qed.

Lemma decodeFunctionResult_uint256 (data : Hex) (quote : Z) :
  decodeFunctionResult get_dyAbi data = Normal quote -> uint256 quote.
Proof.
  unfold decodeFunctionResult. cbn [outputs get_dyAbi].
  destruct (size data =? 0)%nat; [discriminate|].
  destruct (size data <? 32)%nat; [discriminate|].
  unfold decodeNumber, hexToBigInt. cbn [andb].
  destruct (hexToZFrom 0 (take 64 (strip0x data))) as [v|] eqn:E;
    [|discriminate].
  intros H. apply Normal_inj in H. subst v.
  apply hexToZFrom_bound in E; [|lia].
  pose proof (length_take 64 (strip0x data)) as L.
  assert (M : 16 ^ Z.of_nat (String.length (take 64 (strip0x data)))
              <= 16 ^ 64) by (apply Z.pow_le_mono_r; lia).
  change (16 ^ 64) with (2 ^ 256) in M. unfold uint256. lia.
Qed.

(** When the client of the source answers, the arguments were in range
    and the quote is a uint256. *)
Lemma viem_answered (transport : Transport) (attempt : nat) (pool : Address)
  (i j dx quote : Z) :
  fst (viemReadContract transport attempt (get_dyRequest pool i j dx))
    = Normal quote ->
  int128 i /\ int128 j /\ uint256 dx /\ uint256 quote.
Proof.
  rewrite viemReadContract_get_dy.
  destruct (encode_get_dy_rejected i j dx) as (R1 & R2 & R3).
  destruct (int128_dec i) as [Hi|Hi];
    [|rewrite (R1 Hi); intros H; discriminate H].
  destruct (int128_dec j) as [Hj|Hj];
    [|rewrite (R2 Hi Hj); intros H; discriminate H].
  destruct (uint256_dec dx) as [Hd|Hd];
    [|rewrite (R3 Hi Hj Hd); intros H; discriminate H].
  rewrite (encode_get_dy _ _ _ Hi Hj Hd).
  destruct (negb (pool =? "")%string && negb (isAddress pool));
    [intros H; discriminate H|].
  destruct (withRetry _ _ _) as [[err|response] n]; cbn [fst];
    [intros H; discriminate H|].
  intros H. apply decodeFunctionResult_uint256 in H. auto.
Qed.





(** What the client of the source does with a get_dy request whose
    arguments or pool address do not fit: it throws before it sends
    anything. *)
Lemma viem_rejects_unsent (rpc : Endpoint) (attempt : nat) (pool : Address)
  (i j dx : Z) :
  let answer := viemReadContract (http rpc) attempt (get_dyRequest pool i j dx) in
  (~ int128 i ->
   answer = (Throw (IntegerOutOfRangeError i true 16), attempt))
  /\ (int128 i -> ~ int128 j ->
      answer = (Throw (IntegerOutOfRangeError j true 16), attempt))
  /\ (int128 i -> int128 j -> ~ uint256 dx ->
      answer = (Throw (IntegerOutOfRangeError dx false 32), attempt))
  /\ (int128 i -> int128 j -> uint256 dx ->
      pool <> "" -> isAddress pool = false ->
      answer = (Throw (ClientError "InvalidAddressError"), attempt)).
Proof.
  intros answer. subst answer. rewrite viemReadContract_get_dy.
  destruct (encode_get_dy_rejected i j dx) as (R1 & R2 & R3).
  split; [|split; [|split]].
  - intros Hi. now rewrite (R1 Hi).
  - intros Hi Hj. now rewrite (R2 Hi Hj).
  - intros Hi Hj Hd. now rewrite (R3 Hi Hj Hd).
  - intros Hi Hj Hd Hp HA. rewrite (encode_get_dy _ _ _ Hi Hj Hd), HA.
    destruct (String.eqb_spec pool ""); [contradiction | reflexivity].
Qed.



(** X8.  With the client that [getMinDy] creates, the first argument that
    does not fit decides the error, in the order i, j, _dx, pool address,
    and in each of these cases no HTTP request is made.  Whenever that
    client answers, the quote and the adjusted quote fit uint256, so the
    only encoding error left is a malformed receiver, reported with
    InvalidAddressError. *)
Theorem generateExchangeCallData_error_order (rpc : Endpoint)
  (pool : Address) (i j _dx : Z) (_receiver : Address) (tr : Trace) :
  let client := createPublicClient (http rpc) in
  let run := generateExchangeCallData client pool i j _dx _receiver tr in
  let unsent :=
    httpAttempts (http rpc) 0 (snd run) = httpAttempts (http rpc) 0 tr in
  (~ int128 i ->
   fst run = Throw (IntegerOutOfRangeError i true 16) /\ unsent)
  /\ (int128 i -> ~ int128 j ->
      fst run = Throw (IntegerOutOfRangeError j true 16) /\ unsent)
  /\ (int128 i -> int128 j -> ~ uint256 _dx ->
      fst run = Throw (IntegerOutOfRangeError _dx false 32) /\ unsent)
  /\ (int128 i -> int128 j -> uint256 _dx ->
      pool <> "" -> isAddress pool = false ->
      fst run = Throw (ClientError "InvalidAddressError") /\ unsent)
  /\ (forall quote,
        readContract client tr (get_dyRequest pool i j _dx) = Normal quote ->
        uint256 quote
        /\ uint256 (calculateAdjustedMinOutput quote None)
        /\ (isAddress _receiver = false ->
            fst run = Throw (InvalidAddressError _receiver))
        /\ (isAddress _receiver = true ->
            fst run = Normal (exchangeLayout i j _dx
                                (calculateAdjustedMinOutput quote None)
                                _receiver))).
Proof.
  intros client run unsent. subst client run unsent.
  destruct (generateExchangeCallData_viem rpc pool i j _dx _receiver tr)
    as (F & _ & N).
  cbv zeta in F, N. rewrite N.
  destruct (viem_rejects_unsent rpc (httpAttempts (http rpc) 0 tr) pool
              i j _dx) as (R1 & R2 & R3 & R4).
  cbv zeta in R1, R2, R3, R4.
  split; [|split; [|split; [|split]]].
  - intros Hi. rewrite (R1 Hi) in *. now split.
  - intros Hi Hj. rewrite (R2 Hi Hj) in *. now split.
  - intros Hi Hj Hd. rewrite (R3 Hi Hj Hd) in *. now split.
  - intros Hi Hj Hd Hp HA. rewrite (R4 Hi Hj Hd Hp HA) in *. now split.
  - intros quote Q.
    destruct (viem_answered _ _ _ _ _ _ _ Q) as (Hi & Hj & Hd & Hq).
    pose proof (adjusted_default_range _ Hq) as Hm.
    destruct (exchange_outcome_cases _ _ _ _ _ _receiver _ _ Q)
      as (_ & _ & _ & _ & C5 & C6).
    split; [exact Hq|]. split; [exact Hm|].
    split; [exact (C5 Hi Hj Hd Hm) | exact (C6 Hi Hj Hd Hm)].
Qed.

Lemma generateExchangeCallData_error_order_witness :
  (fst (generateExchangeCallData
          (createPublicClient (http (quotingEndpoint 99000000)))
          curvePool (2 ^ 127) 0 (- 1) "0x1234" [])
     = Throw (IntegerOutOfRangeError (2 ^ 127) true 16)
   /\ httpAttempts (http (quotingEndpoint 99000000)) 0
        (snd (generateExchangeCallData
                (createPublicClient (http (quotingEndpoint 99000000)))
                curvePool (2 ^ 127) 0 (- 1) "0x1234" []))
      = httpAttempts (http (quotingEndpoint 99000000)) 0 [])
  /\ (fst (generateExchangeCallData
             (createPublicClient (http (quotingEndpoint 99000000)))
             "not an address" 1 0 100000000 usdcMainnet [])
        = Throw (ClientError "InvalidAddressError")
      /\ httpAttempts (http (quotingEndpoint 99000000)) 0
           (snd (generateExchangeCallData
                   (createPublicClient (http (quotingEndpoint 99000000)))
                   "not an address" 1 0 100000000 usdcMainnet []))
         = httpAttempts (http (quotingEndpoint 99000000)) 0 []).
Proof.
  split.
  - apply (generateExchangeCallData_error_order (quotingEndpoint 99000000)
             curvePool (2 ^ 127) 0 (- 1) "0x1234" []).
    unfold int128. lia.
  - apply (generateExchangeCallData_error_order (quotingEndpoint 99000000)
             "not an address" 1 0 100000000 usdcMainnet []);
      try in_range; [discriminate | reflexivity].
Defined.
